(** * NarouEvalu: the index / filter / paginate / detail-fetch pipeline of main.py

    main.py is a Streamlit script.  It loads a narrow index of a corpus of
    novels from parquet files through DuckDB, filters and sorts the index with
    pandas, cuts one page out of the result and fetches the synopsis ("story")
    of the rows of that page only.

    The development embeds the script stage by stage:
    - Python [str] values are sequences of Unicode code points ([pystr]);
    - a DataFrame is the list of its rows, a nullable column an [option];
    - exceptions are the [Raise] outcome of an error monad that also records
      the trace of statements sent to DuckDB and of Streamlit calls;
    - [Series.str.contains] compiles its pattern with Python's [re]; the
      fragment of the [re] syntax that is modelled is described at [parse];
    - [DataFrame.sort_values] is called with the default [kind="quicksort"],
      for which pandas promises a sorted permutation and nothing about ties
      (only "mergesort" and "stable" are documented as stable): the sort is a
      parameter of the view, [sorts_by_point_desc] is what pandas promises
      of it, and a sort that meets it is given;
    - sections 1 to 6 fix Python's [re] to the modelled fragment, let the
      loading of the parquet extension always succeed and leave the cache
      of [st.cache_data] out; section 8 gives the filter for any [re] and
      the run for any state of the extension and of the cache;
    - [math.ceil(a / b)] is the exact ceiling of the quotient, which is what
      the binary64 division gives for row counts below 2^53. *)

From Stdlib Require Import ZArith NArith List Bool Lia Permutation Sorted.
From Stdlib Require Import Ascii String.
Import ListNotations.
Open Scope Z_scope.

Set Implicit Arguments.

(** ** Python strings *)

Definition pystr := list N.

Fixpoint pystr_eqb (a b : pystr) : bool :=
  match a, b with
  | [], [] => true
  | x :: a', y :: b' => N.eqb x y && pystr_eqb a' b'
  | _, _ => false
  end.

(** An ASCII literal as a Python string. *)
Definition lit (s : string) : pystr :=
  map N_of_ascii (list_ascii_of_string s).

(** "すべて" (U+3059 U+3079 U+3066): the entry of the genre selectbox that
    switches the genre predicate off. *)
Definition ALL_GENRES : pystr := [0x3059; 0x3079; 0x3066]%N.

(** "不明" (U+4E0D U+660E): the genre written in place of a missing one. *)
Definition UNKNOWN_GENRE : pystr := [0x4E0D; 0x660E]%N.

(** ** Rows *)

(** A row of the parquet files, with every column the script ever names. *)
Module Parquet.
Record row := {
  ncode : pystr;
  title : option pystr;
  genre : option pystr;
  global_point : option Z;
  length : option Z;
  general_lastup : option pystr;
  keyword : option pystr;
  story : option pystr
}.
End Parquet.

(** A row of [df_index]: the seven columns of the SELECT of
    [load_index_data], after [fillna]. *)
Module Index.
Record row := {
  ncode : pystr;
  title : option pystr;
  genre : pystr;
  global_point : Z;
  length : option Z;
  general_lastup : option pystr;
  keyword : option pystr
}.
End Index.

(** ** Outcomes, traces and the monad of the script *)

Inductive exn :=
| duckdb_IOException   (* the parquet files cannot be read *)
| re_error             (* re.compile rejects the pattern *)
| ZeroDivisionError
| InvalidPageError.    (* named by the specification; main.py has no raise of it *)

(** [Beyond] marks a run that reaches a pattern outside the modelled fragment
    of the [re] syntax: nothing is said about such a run. *)
Inductive outcome (A : Type) :=
| Ret (a : A)
| Raise (e : exn)
| Beyond.
Arguments Raise {A} e.
Arguments Beyond {A}.

Definition obind {A B} (o : outcome A) (k : A -> outcome B) : outcome B :=
  match o with
  | Ret a => k a
  | Raise e => Raise e
  | Beyond => Beyond
  end.

(** ** 1. load_index_data *)

(** [df["global_point"].fillna(0).astype(int)] *)
Definition fill_point (p : option Z) : Z :=
  match p with Some z => z | None => 0 end.

(** [df["genre"].fillna("不明")] *)
Definition fill_genre (g : option pystr) : pystr :=
  match g with Some s => s | None => UNKNOWN_GENRE end.

(** One row of the SELECT (seven columns, no [story]) after the two fillna. *)
Definition index_of_row (r : Parquet.row) : Index.row :=
  {| Index.ncode := Parquet.ncode r;
     Index.title := Parquet.title r;
     Index.genre := fill_genre (Parquet.genre r);
     Index.global_point := fill_point (Parquet.global_point r);
     Index.length := Parquet.length r;
     Index.general_lastup := Parquet.general_lastup r;
     Index.keyword := Parquet.keyword r |}.

(** The store as a query sees it: the rows of all partitions, or no answer. *)
Definition store := option (list Parquet.row).

(** The statements the script sends through [con.execute]. *)
Inductive sql :=
| INSTALL_LOAD_parquet
| SELECT_index                          (* the seven narrow columns, no WHERE *)
| SELECT_story_IN (ids : list pystr).   (* ncode, story WHERE ncode IN (ids) *)

(** What a run does that can be observed: statements executed and Streamlit
    calls, in order. *)
Inductive event :=
| Execute (q : sql)
| st_error
| st_stop
| st_title (n : Z)
| st_number_input (max_value : Z)
| st_data_editor (df_final : list (Index.row * option pystr))
| st_warning.

(** A computation of the script: the events it emits and how it ends. *)
Definition M (A : Type) : Type := (list event * outcome A)%type.

Definition ret {A} (a : A) : M A := ([], Ret a).
Definition raise {A} (e : exn) : M A := ([], Raise e).
Definition emit (ev : event) : M unit := ([ev], Ret tt).
Definition lift {A} (o : outcome A) : M A := ([], o).

Definition bind {A B} (m : M A) (k : A -> M B) : M B :=
  match m with
  | (t, Ret a) => let (t', o) := k a in (t ++ t', o)
  | (t, Raise e) => (t, Raise e)
  | (t, Beyond) => (t, Beyond)
  end.

Notation "x <- m ;; k" := (bind m (fun x => k))
  (at level 61, m at next level, right associativity).
Notation "m ;;; k" := (bind m (fun _ => k))
  (at level 61, right associativity).

(** [con.execute(q).fetchdf()] on the store: the statement is executed, and
    reading the parquet files fails when the store gives no answer. *)
Definition execute_select (q : sql) (s : store) : M (list Parquet.row) :=
  emit (Execute q) ;;;
  match s with
  | Some rows => ret rows
  | None => raise duckdb_IOException
  end.

(** Lines 16-31, the body of the function, with the parquet extension
    taken as loadable; [load_index_data_in] of section 8 has the cache of
    [st.cache_data] and the failure of the loading as well. *)
Definition load_index_data (s : store) : M (list Index.row) :=
  emit (Execute INSTALL_LOAD_parquet) ;;;
  rows <- execute_select SELECT_index s ;;
  ret (map index_of_row rows).

(** ** 2. Series.str.contains: Python's re on a fragment of its syntax *)

Inductive regex :=
| Void
| Eps
| Chr (c : N)
| AnyChar                (* [.] without DOTALL: any code point but U+000A *)
| Cat (r1 r2 : regex)
| Alt (r1 r2 : regex)
| Star (r : regex).

(** What [re.compile] answers: a pattern, [re.error], or [Outside] when the
    string uses syntax that is not modelled. *)
Inductive compiled :=
| Pattern (r : regex)
| BadPattern
| Outside.

Definition chr (s : string) : N :=
  match s with
  | String a _ => N_of_ascii a
  | EmptyString => 0%N
  end.

(** The characters of sre_parse's SPECIAL_CHARS and the closing brackets. *)
Definition is_special (c : N) : bool :=
  existsb (N.eqb c)
    (map chr ["."; "\"; "["; "{"; "("; ")"; "*"; "+"; "?"; "^"; "$"; "|"; "]"; "}"])%string.

(** The state of sre_parse's [_parse_sub]/[_parse] inside one group: the
    alternatives already closed by [|], the items of the current branch
    before the last one, the last item (the one a repeat applies to) and
    whether that item is itself a repeat. *)
Record frame := {
  alts : option regex;
  items : regex;
  last : option regex;
  repeated : bool
}.

Definition frame0 : frame :=
  {| alts := None; items := Eps; last := None; repeated := false |}.

Definition close_branch (f : frame) : regex :=
  match last f with
  | Some r => Cat (items f) r
  | None => items f
  end.

Definition close_frame (f : frame) : regex :=
  match alts f with
  | Some a => Alt a (close_branch f)
  | None => close_branch f
  end.

Definition push_item (f : frame) (r : regex) : frame :=
  {| alts := alts f; items := close_branch f; last := Some r; repeated := false |}.

Definition next_branch (f : frame) : frame :=
  {| alts := Some (close_frame f); items := Eps; last := None; repeated := false |}.

Definition repeat_last (f : frame) (q : regex -> regex) (r : regex) : frame :=
  {| alts := alts f; items := items f; last := Some (q r); repeated := true |}.

Definition star (r : regex) : regex := Star r.
Definition plus (r : regex) : regex := Cat r (Star r).
Definition opt (r : regex) : regex := Alt Eps r.

Definition quantifier (c : N) : option (regex -> regex) :=
  if N.eqb c (chr "*") then Some star
  else if N.eqb c (chr "+") then Some plus
  else if N.eqb c (chr "?") then Some opt
  else None.

(** [parse p f stack] reads the pattern left to right as sre_parse does, with
    [f] the frame of the innermost open group and [stack] the frames of the
    groups around it.

    Modelled: ordinary characters, [.], [|], plain groups [( )], one of
    [* + ?] after an item, and a backslash before a special character.
    Errors of re modelled: a repeat with nothing before it in its branch
    ("nothing to repeat"), [)] without an open group ("unbalanced
    parenthesis"), end of pattern inside a group ("missing ), unterminated
    subpattern"), a backslash at the end ("bad escape (end of pattern)").
    [Outside]: [[ ] { } ^ $], [(?], a backslash before anything else, and a
    repeat directly after a repeat (lazy, possessive or an error, depending
    on the characters and on the Python version). *)
Fixpoint parse (p : pystr) (f : frame) (stack : list frame) : compiled :=
  match p with
  | [] =>
      match stack with
      | [] => Pattern (close_frame f)
      | _ :: _ => BadPattern
      end
  | c :: p' =>
      if N.eqb c (chr "\") then
        match p' with
        | [] => BadPattern
        | d :: p'' =>
            if is_special d then parse p'' (push_item f (Chr d)) stack
            else Outside
        end
      else if N.eqb c (chr "(") then
        match p' with
        | d :: _ =>
            if N.eqb d (chr "?") then Outside
            else parse p' frame0 (f :: stack)
        | [] => BadPattern
        end
      else if N.eqb c (chr ")") then
        match stack with
        | [] => BadPattern
        | g :: stack' => parse p' (push_item g (close_frame f)) stack'
        end
      else if N.eqb c (chr "|") then parse p' (next_branch f) stack
      else if N.eqb c (chr ".") then parse p' (push_item f AnyChar) stack
      else
        match quantifier c with
        | Some q =>
            match last f with
            | None => BadPattern
            | Some r =>
                if repeated f then Outside
                else parse p' (repeat_last f q r) stack
            end
        | None =>
            if is_special c then Outside
            else parse p' (push_item f (Chr c)) stack
        end
  end.

Definition re_compile (pat : pystr) : compiled := parse pat frame0 [].

(** Matching by derivatives. *)
Fixpoint nullable (r : regex) : bool :=
  match r with
  | Void => false
  | Eps => true
  | Chr _ => false
  | AnyChar => false
  | Cat r1 r2 => nullable r1 && nullable r2
  | Alt r1 r2 => nullable r1 || nullable r2
  | Star _ => true
  end.

Definition NEWLINE : N := 10%N.

Fixpoint deriv (c : N) (r : regex) : regex :=
  match r with
  | Void => Void
  | Eps => Void
  | Chr d => if N.eqb c d then Eps else Void
  | AnyChar => if N.eqb c NEWLINE then Void else Eps
  | Cat r1 r2 =>
      if nullable r1 then Alt (Cat (deriv c r1) r2) (deriv c r2)
      else Cat (deriv c r1) r2
  | Alt r1 r2 => Alt (deriv c r1) (deriv c r2)
  | Star r1 => Cat (deriv c r1) (Star r1)
  end.

(** [r] matches the whole of [s]. *)
Fixpoint fullmatch (r : regex) (s : pystr) : bool :=
  match s with
  | [] => nullable r
  | c :: s' => fullmatch (deriv c r) s'
  end.

(** [pattern.match(s)]: [r] matches a prefix of [s]. *)
Fixpoint re_match (r : regex) (s : pystr) : bool :=
  nullable r ||
  match s with
  | [] => false
  | c :: s' => re_match (deriv c r) s'
  end.

(** [pattern.search(s) is not None]: [r] matches at some position of [s]. *)
Fixpoint re_search (r : regex) (s : pystr) : bool :=
  re_match r s ||
  match s with
  | [] => false
  | _ :: s' => re_search r s'
  end.

(** The language of a pattern: the strings it matches as a whole. *)
Inductive matches : regex -> pystr -> Prop :=
| m_eps : matches Eps []
| m_chr c : matches (Chr c) [c]
| m_any c : c <> NEWLINE -> matches AnyChar [c]
| m_cat r1 r2 s1 s2 : matches r1 s1 -> matches r2 s2 -> matches (Cat r1 r2) (s1 ++ s2)
| m_alt_l r1 r2 s : matches r1 s -> matches (Alt r1 r2) s
| m_alt_r r1 r2 s : matches r2 s -> matches (Alt r1 r2) s
| m_star_nil r : matches (Star r) []
| m_star_app r s1 s2 : matches r s1 -> matches (Star r) s2 -> matches (Star r) (s1 ++ s2).

(** One cell of [col.str.contains(pat, na=False)], the pattern compiled. *)
Definition contains_cell (r : regex) (cell : option pystr) : bool :=
  match cell with
  | Some s => re_search r s
  | None => false
  end.

(** Literal substring search ([keyword in s]), to compare with. *)
Fixpoint starts_with (k s : pystr) : bool :=
  match k, s with
  | [], _ => true
  | x :: k', y :: s' => N.eqb x y && starts_with k' s'
  | _ :: _, [] => false
  end.

Fixpoint occurs_in (k s : pystr) : bool :=
  starts_with k s ||
  match s with
  | [] => false
  | _ :: s' => occurs_in k s'
  end.

Definition occurs_in_cell (k : pystr) (cell : option pystr) : bool :=
  match cell with
  | Some s => occurs_in k s
  | None => false
  end.

(** ** 3. Filtering and sorting of df_index *)

(** [df[mask]] for a boolean mask aligned with the rows of [df]. *)
Definition boolean_index {A} (df : list A) (mask : list bool) : list A :=
  map fst (filter snd (combine df mask)).

(** [col.str.contains(pat, na=False)] with the default [regex=True]: the
    pattern is compiled once, whatever the number of rows. *)
Definition str_contains (pat : pystr) (col : list (option pystr)) : outcome (list bool) :=
  match re_compile pat with
  | Pattern r => Ret (map (contains_cell r) col)
  | BadPattern => Raise re_error
  | Outside => Beyond
  end.

Definition min_point_step (min_point : Z) (df : list Index.row) : list Index.row :=
  if min_point >? 0 then
    boolean_index df (map (fun r => Index.global_point r >=? min_point) df)
  else df.

Definition genre_step (genre_filter : pystr) (df : list Index.row) : list Index.row :=
  if negb (pystr_eqb genre_filter ALL_GENRES) then
    boolean_index df (map (fun r => pystr_eqb (Index.genre r) genre_filter) df)
  else df.

Definition keyword_step (keyword : pystr) (df : list Index.row) : outcome (list Index.row) :=
  match keyword with
  | [] => Ret df
  | _ :: _ =>
      obind (str_contains keyword (map Index.title df)) (fun m1 =>
      obind (str_contains keyword (map Index.keyword df)) (fun m2 =>
      Ret (boolean_index df (map (fun b => orb (fst b) (snd b)) (combine m1 m2)))))
  end.

(** Lines 52-65: [df_view] before the sort. *)
Definition filter_index (min_point : Z) (genre_filter keyword : pystr)
    (df_index : list Index.row) : outcome (list Index.row) :=
  keyword_step keyword (genre_step genre_filter (min_point_step min_point df_index)).

(** What pandas documents for [sort_values("global_point", ascending=False)]
    whatever the [kind]: the rows of the frame, each once, in non-increasing
    order of the column. *)
Definition point_ge (a b : Index.row) : Prop :=
  Index.global_point a >= Index.global_point b.

Definition sorts_by_point_desc (sort_values : list Index.row -> list Index.row) : Prop :=
  forall df, Permutation df (sort_values df) /\ StronglySorted point_ge (sort_values df).

(** A sort that meets it.  Insertion from the right end of the frame; with
    [before_ties] a row goes in front of the rows with the same points, so
    that rows of equal points keep the order of the frame. *)
Fixpoint insert_row (before_ties : bool) (a : Index.row) (l : list Index.row) : list Index.row :=
  match l with
  | [] => [a]
  | b :: l' =>
      if (if before_ties then Index.global_point a >=? Index.global_point b
          else Index.global_point a >? Index.global_point b)
      then a :: b :: l'
      else b :: insert_row before_ties a l'
  end.

Fixpoint insertion_sort (before_ties : bool) (df : list Index.row) : list Index.row :=
  match df with
  | [] => []
  | a :: df' => insert_row before_ties a (insertion_sort before_ties df')
  end.

Definition sort_stable : list Index.row -> list Index.row := insertion_sort true.

(** Ties in original order: for every score, the rows with that score come
    in [out] in the order they have in [df]. *)
Definition with_point (p : Z) (df : list Index.row) : list Index.row :=
  filter (fun r => Index.global_point r =? p) df.

Definition ties_in_index_order (df out : list Index.row) : Prop :=
  forall p, with_point p out = with_point p df.

Section View.
(** The sort pandas runs for the default [kind]. *)
Variable sort_values : list Index.row -> list Index.row.

(** Lines 52-68: [df_view]. *)
Definition view (min_point : Z) (genre_filter keyword : pystr)
    (df_index : list Index.row) : outcome (list Index.row) :=
  obind (filter_index min_point genre_filter keyword df_index)
        (fun df_view => Ret (sort_values df_view)).
End View.

(** ** 4. Pagination *)

Definition PAGE_SIZE : Z := 50.

(** [math.ceil(a / b)]: true division raises on a zero divisor; otherwise
    the ceiling of the quotient, written with the floor division of Z. *)
Definition math_ceil_div (a b : Z) : outcome Z :=
  if b =? 0 then Raise ZeroDivisionError else Ret (- ((- a) / b)).

(** Line 77. *)
Definition total_pages (page_size total_rows : Z) : outcome Z :=
  if total_rows >? 0 then math_ceil_div total_rows page_size else Ret 1.

(** A bound of a slice, as Python adjusts it to a sequence of [len] items. *)
Definition slice_bound (len i : Z) : Z :=
  if i <? 0 then Z.max 0 (i + len) else Z.min i len.

(** [df.iloc[start:stop]] *)
Definition iloc {A} (df : list A) (start stop : Z) : list A :=
  let len := Z.of_nat (List.length df) in
  let a := slice_bound len start in
  let b := slice_bound len stop in
  firstn (Z.to_nat (b - a)) (skipn (Z.to_nat a) df).

(** Lines 84-86. *)
Definition page_slice {A} (page_size : Z) (df_view : list A) (current_page : Z) : list A :=
  let start_idx := (current_page - 1) * page_size in
  let end_idx := start_idx + page_size in
  iloc df_view start_idx end_idx.

(** Lines 76-86 with the page size as a parameter: the page count, then the
    slice for the page number the widget returned. *)
Definition paginate {A} (page_size : Z) (df_view : list A) (current_page : Z)
    : outcome (list A * Z) :=
  obind (total_pages page_size (Z.of_nat (List.length df_view))) (fun n =>
  Ret (page_slice page_size df_view current_page, n)).

(** The pages 1 .. n of a view, one after the other. *)
Fixpoint pages_upto {A} (page_size : Z) (df_view : list A) (n : nat) : list A :=
  match n with
  | O => []
  | S k => pages_upto page_size df_view k ++ page_slice page_size df_view (Z.of_nat (S k))
  end.

(** ** 5. The synopsis of the rows of one page *)

Definition ncode_in (ids : list pystr) (n : pystr) : bool :=
  existsb (pystr_eqb n) ids.

(** The answer to [story_query]: (ncode, story) of the rows whose ncode is
    one of the bound parameters. *)
Definition story_rows (ids : list pystr) (rows : list Parquet.row)
    : list (pystr * option pystr) :=
  map (fun r => (Parquet.ncode r, Parquet.story r))
      (filter (fun r => ncode_in ids (Parquet.ncode r)) rows).

(** Lines 96-107. *)
Definition fetch_stories (s : store) (target_ncodes : list pystr)
    : M (list (pystr * option pystr)) :=
  emit (Execute INSTALL_LOAD_parquet) ;;;
  rows <- execute_select (SELECT_story_IN target_ncodes) s ;;
  ret (story_rows target_ncodes rows).

(** [pd.merge(left, right, on="ncode", how="left")]: every left row, in
    order, once per right row with its ncode, or once with a null story. *)
Definition merge_left (left : list Index.row) (right : list (pystr * option pystr))
    : list (Index.row * option pystr) :=
  flat_map (fun l =>
    match filter (fun d => pystr_eqb (fst d) (Index.ncode l)) right with
    | [] => [(l, None)]
    | d :: ds => map (fun d' => (l, snd d')) (d :: ds)
    end) left.

(** Lines 89-112: [df_final]. *)
Definition detail_block (s : store) (df_display_index : list Index.row)
    : M (list (Index.row * option pystr)) :=
  match df_display_index with
  | [] => ret []
  | _ :: _ =>
      let target_ncodes := map Index.ncode df_display_index in
      df_stories <- fetch_stories s target_ncodes ;;
      ret (merge_left df_display_index df_stories)
  end.

(** Lines 117-136. *)
Definition display (df_final : list (Index.row * option pystr)) : M unit :=
  match df_final with
  | [] => emit st_warning
  | _ :: _ => emit (st_data_editor df_final)
  end.

(** ** 6. One run of the script *)

(** The store at the time of the index query and at the time of the story
    query of the same run. *)
Record world := {
  at_load : store;
  at_fetch : store
}.

Inductive run_end :=
| Completed
| Stopped                (* st.stop() after the except clause of lines 37-39 *)
| Uncaught (e : exn)     (* an exception leaves the script *)
| Unmodelled.

Section Script.
Variable sort_values : list Index.row -> list Index.row.

(** Lines 44-136, from the loaded index on.  [current_page] is the value
    the page widget returned. *)
Definition body (w : world) (min_point : Z) (genre_filter keyword : pystr)
    (current_page : Z) (df_index : list Index.row) : M unit :=
  df_view <- lift (view sort_values min_point genre_filter keyword df_index) ;;
  emit (st_title (Z.of_nat (List.length df_view))) ;;;
  n <- lift (total_pages PAGE_SIZE (Z.of_nat (List.length df_view))) ;;
  emit (st_number_input n) ;;;
  df_final <- detail_block (at_fetch w) (page_slice PAGE_SIZE df_view current_page) ;;
  display df_final.

Definition main (w : world) (min_point : Z) (genre_filter keyword : pystr)
    (current_page : Z) : list event * run_end :=
  match load_index_data (at_load w) with
  | (t, Raise _) => (t ++ [st_error; st_stop], Stopped)
  | (t, Beyond) => (t, Unmodelled)
  | (t, Ret df_index) =>
      match body w min_point genre_filter keyword current_page df_index with
      | (t', Ret _) => (t ++ t', Completed)
      | (t', Raise e) => (t ++ t', Uncaught e)
      | (t', Beyond) => (t ++ t', Unmodelled)
      end
  end.
End Script.

(** ** 7. The options of the genre selectbox *)

(** [Series.unique()]: the values in order of first appearance. *)
Fixpoint unique (l : list pystr) : list pystr :=
  match l with
  | [] => []
  | x :: l' => x :: filter (fun y => negb (pystr_eqb y x)) (unique l')
  end.

(** [a < b] on Python strings: lexicographic on the code points. *)
Fixpoint pystr_ltb (a b : pystr) : bool :=
  match a, b with
  | [], [] => false
  | [], _ :: _ => true
  | _ :: _, [] => false
  | x :: a', y :: b' =>
      if N.ltb x y then true
      else if N.eqb x y then pystr_ltb a' b'
      else false
  end.

(** [sorted(l)] on strings (equal strings cannot be told apart, so that the
    stability of Python's sort does not show). *)
Fixpoint sorted_insert (x : pystr) (l : list pystr) : list pystr :=
  match l with
  | [] => [x]
  | y :: l' => if pystr_ltb x y then x :: y :: l' else y :: sorted_insert x l'
  end.

Fixpoint sorted (l : list pystr) : list pystr :=
  match l with
  | [] => []
  | x :: l' => sorted_insert x (sorted l')
  end.

(** Line 46: the "all" entry, then the genres of the index in order. *)
Definition genres (df_index : list Index.row) : list pystr :=
  ALL_GENRES :: sorted (unique (map Index.genre df_index)).

(** ** 8. The filter for any re, the run for any extension state and cache *)

(** Python's [re] as lines 63-64 use it through [str.contains]: what
    [re.compile(pat)] answers ([None] when it raises re.error) and whether
    [pattern.search(s)] finds a match.  Nothing is assumed of either. *)
Record re_module := {
  re_Pattern : Type;
  compile : pystr -> option re_Pattern;
  search : re_Pattern -> pystr -> bool
}.

(** One cell of [col.str.contains(pat, na=False)], the pattern compiled. *)
Definition cell_search (re : re_module) (p : re_Pattern re) (cell : option pystr) : bool :=
  match cell with
  | Some s => search re p s
  | None => false
  end.

Definition str_contains_in (re : re_module) (pat : pystr) (col : list (option pystr))
    : outcome (list bool) :=
  match compile re pat with
  | Some p => Ret (map (cell_search re p) col)
  | None => Raise re_error
  end.

Definition keyword_step_in (re : re_module) (keyword : pystr) (df : list Index.row)
    : outcome (list Index.row) :=
  match keyword with
  | [] => Ret df
  | _ :: _ =>
      obind (str_contains_in re keyword (map Index.title df)) (fun m1 =>
      obind (str_contains_in re keyword (map Index.keyword df)) (fun m2 =>
      Ret (boolean_index df (map (fun b => orb (fst b) (snd b)) (combine m1 m2)))))
  end.

(** Lines 52-65 and 52-68 with [re] as it is given. *)
Definition filter_index_in (re : re_module) (min_point : Z) (genre_filter keyword : pystr)
    (df_index : list Index.row) : outcome (list Index.row) :=
  keyword_step_in re keyword (genre_step genre_filter (min_point_step min_point df_index)).

Definition view_in (re : re_module) (sort_values : list Index.row -> list Index.row)
    (min_point : Z) (genre_filter keyword : pystr) (df_index : list Index.row)
    : outcome (list Index.row) :=
  obind (filter_index_in re min_point genre_filter keyword df_index)
        (fun df_view => Ret (sort_values df_view)).

(** The modelled fragment as a [re_module].  On a pattern outside the
    fragment it answers as for an error, which need not be Python's answer:
    it stands for Python's [re] on the patterns of the fragment only. *)
Definition fragment_re : re_module :=
  {| re_Pattern := regex;
     compile := fun pat => match re_compile pat with
                           | Pattern r => Some r
                           | BadPattern => None
                           | Outside => None
                           end;
     search := re_search |}.

(** What a run finds around it: the entry of [st.cache_data] for
    [load_index_data] when there is one that has not expired, whether
    [INSTALL parquet; LOAD parquet;] succeeds on the connection of the index
    query and on the one of the story query, and the store at both times. *)
Record session := {
  cached : option (list Index.row);
  extension_at_load : bool;
  extension_at_fetch : bool;
  seen : world
}.

(** [con.execute("INSTALL parquet; LOAD parquet;")] *)
Definition install_load (ok : bool) : M unit :=
  emit (Execute INSTALL_LOAD_parquet) ;;;
  if ok then ret tt else raise duckdb_IOException.

(** Lines 15-31: the cached frame on a hit, the body of the function
    otherwise. *)
Definition load_index_data_in (ss : session) : M (list Index.row) :=
  match cached ss with
  | Some df => ret df
  | None =>
      install_load (extension_at_load ss) ;;;
      rows <- execute_select SELECT_index (at_load (seen ss)) ;;
      ret (map index_of_row rows)
  end.

(** Lines 96-107. *)
Definition fetch_stories_in (ss : session) (target_ncodes : list pystr)
    : M (list (pystr * option pystr)) :=
  install_load (extension_at_fetch ss) ;;;
  rows <- execute_select (SELECT_story_IN target_ncodes) (at_fetch (seen ss)) ;;
  ret (story_rows target_ncodes rows).

(** Lines 89-112. *)
Definition detail_block_in (ss : session) (df_display_index : list Index.row)
    : M (list (Index.row * option pystr)) :=
  match df_display_index with
  | [] => ret []
  | _ :: _ =>
      let target_ncodes := map Index.ncode df_display_index in
      df_stories <- fetch_stories_in ss target_ncodes ;;
      ret (merge_left df_display_index df_stories)
  end.

(** Lines 44-136 from the index on, and the whole script. *)
Definition body_in (re : re_module) (sort_values : list Index.row -> list Index.row)
    (ss : session) (min_point : Z) (genre_filter keyword : pystr)
    (current_page : Z) (df_index : list Index.row) : M unit :=
  df_view <- lift (view_in re sort_values min_point genre_filter keyword df_index) ;;
  emit (st_title (Z.of_nat (List.length df_view))) ;;;
  n <- lift (total_pages PAGE_SIZE (Z.of_nat (List.length df_view))) ;;
  emit (st_number_input n) ;;;
  df_final <- detail_block_in ss (page_slice PAGE_SIZE df_view current_page) ;;
  display df_final.

Definition run (re : re_module) (sort_values : list Index.row -> list Index.row)
    (ss : session) (min_point : Z) (genre_filter keyword : pystr)
    (current_page : Z) : list event * run_end :=
  match load_index_data_in ss with
  | (t, Raise _) => (t ++ [st_error; st_stop], Stopped)
  | (t, Beyond) => (t, Unmodelled)
  | (t, Ret df_index) =>
      match body_in re sort_values ss min_point genre_filter keyword current_page
                    df_index with
      | (t', Ret _) => (t ++ t', Completed)
      | (t', Raise e) => (t ++ t', Uncaught e)
      | (t', Beyond) => (t ++ t', Unmodelled)
      end
  end.

(** * Vocabulary of the properties and sample data *)

(** A parquet row with its story erased. *)
Definition without_story (r : Parquet.row) : Parquet.row :=
  {| Parquet.ncode := Parquet.ncode r;
     Parquet.title := Parquet.title r;
     Parquet.genre := Parquet.genre r;
     Parquet.global_point := Parquet.global_point r;
     Parquet.length := Parquet.length r;
     Parquet.general_lastup := Parquet.general_lastup r;
     Parquet.keyword := Parquet.keyword r;
     Parquet.story := None |}.

(** An index row carries the seven narrow columns of its parquet row, the
    points and the genre filled in where they are missing. *)
Definition indexes (r : Parquet.row) (i : Index.row) : Prop :=
  Index.ncode i = Parquet.ncode r /\
  Index.title i = Parquet.title r /\
  Index.length i = Parquet.length r /\
  Index.general_lastup i = Parquet.general_lastup r /\
  Index.keyword i = Parquet.keyword r /\
  match Parquet.global_point r with
  | Some z => Index.global_point i = z
  | None => Index.global_point i = 0
  end /\
  match Parquet.genre r with
  | Some g => Index.genre i = g
  | None => Index.genre i = UNKNOWN_GENRE
  end.

(** The row-wise reading of the three masks; [re] is the compiled keyword,
    [None] when the keyword is empty. *)
Definition keeps (min_point : Z) (genre_filter : pystr) (re : option regex)
    (r : Index.row) : bool :=
  (if min_point >? 0 then Index.global_point r >=? min_point else true) &&
  (if negb (pystr_eqb genre_filter ALL_GENRES)
   then pystr_eqb (Index.genre r) genre_filter else true) &&
  match re with
  | Some e => contains_cell e (Index.title r) || contains_cell e (Index.keyword r)
  | None => true
  end.

(** [re] is what the keyword step works with: nothing for the empty
    keyword, the compiled pattern otherwise. *)
Definition compiles_to (keyword : pystr) (re : option regex) : Prop :=
  match re with
  | Some e => keyword <> [] /\ re_compile keyword = Pattern e
  | None => keyword = []
  end.

(** The predicates of the filter as a reader of the result sees them. *)
Definition point_ok (min_point : Z) (r : Index.row) : Prop :=
  min_point > 0 -> Index.global_point r >= min_point.

Definition genre_ok (genre_filter : pystr) (r : Index.row) : Prop :=
  genre_filter <> ALL_GENRES -> Index.genre r = genre_filter.

(** The keyword occurs, as a string, in the title or in the keywords. *)
Definition keyword_occurs (keyword : pystr) (r : Index.row) : Prop :=
  keyword <> [] ->
  occurs_in_cell keyword (Index.title r) = true \/
  occurs_in_cell keyword (Index.keyword r) = true.

(** The keyword, as a pattern of re, matches somewhere in the title or in
    the keywords. *)
Definition keyword_matches (keyword : pystr) (r : Index.row) : Prop :=
  keyword <> [] ->
  exists e, re_compile keyword = Pattern e /\
    (contains_cell e (Index.title r) = true \/
     contains_cell e (Index.keyword r) = true).

(** Sample rows. *)
Definition row_abc : Index.row :=
  {| Index.ncode := lit "n0001aa";
     Index.title := Some (lit "abc");
     Index.genre := lit "201";
     Index.global_point := 10;
     Index.length := Some 1200;
     Index.general_lastup := Some (lit "2024-01-01 00:00:00");
     Index.keyword := None |}.

Definition parquet_abc : Parquet.row :=
  {| Parquet.ncode := lit "n0001aa";
     Parquet.title := Some (lit "abc");
     Parquet.genre := Some (lit "201");
     Parquet.global_point := Some 10;
     Parquet.length := Some 1200;
     Parquet.general_lastup := Some (lit "2024-01-01 00:00:00");
     Parquet.keyword := None;
     Parquet.story := Some (lit "Once upon a time") |}.

Definition parquet_other : Parquet.row :=
  {| Parquet.ncode := lit "n0002bb";
     Parquet.title := Some (lit "other");
     Parquet.genre := None;
     Parquet.global_point := None;
     Parquet.length := None;
     Parquet.general_lastup := None;
     Parquet.keyword := None;
     Parquet.story := Some (lit "Another story") |}.

Definition row_dragon : Index.row :=
  {| Index.ncode := lit "n0003cc";
     Index.title := Some (lit "Dragon Quest");
     Index.genre := lit "201";
     Index.global_point := 3;
     Index.length := None;
     Index.general_lastup := None;
     Index.keyword := None |}.

Definition row_star : Index.row :=
  {| Index.ncode := lit "n0004dd";
     Index.title := Some (lit "ab*c");
     Index.genre := lit "201";
     Index.global_point := 2;
     Index.length := None;
     Index.general_lastup := None;
     Index.keyword := Some (lit "x") |}.

(** The filter a literal reading of the keyword would give. *)
Definition literal_filter (keyword : pystr) (df : list Index.row) : list Index.row :=
  filter (fun r => occurs_in_cell keyword (Index.title r)
                   || occurs_in_cell keyword (Index.keyword r)) df.




Definition pystr_lt (a b : pystr) : Prop := pystr_ltb a b = true.

(** A keyword made of ordinary characters only. *)
Definition plain (keyword : pystr) : bool :=
  forallb (fun c => negb (is_special c)) keyword.

(** The rows a literal reading of the keyword keeps, the other two
    predicates as in [keeps]. *)
Definition keeps_literal (min_point : Z) (genre_filter keyword : pystr)
    (r : Index.row) : bool :=
  keeps min_point genre_filter None r &&
  (occurs_in_cell keyword (Index.title r) || occurs_in_cell keyword (Index.keyword r)).

(** More sample rows. *)
Definition row_low : Index.row :=
  {| Index.ncode := lit "n0005ee";
     Index.title := Some (lit "low");
     Index.genre := lit "102";
     Index.global_point := 1;
     Index.length := None;
     Index.general_lastup := None;
     Index.keyword := Some (lit "abc def") |}.

(** The vocabulary of the filter for any [re]. *)
Definition keeps_in (re : re_module) (min_point : Z) (genre_filter : pystr)
    (p : option (re_Pattern re)) (r : Index.row) : bool :=
  (if min_point >? 0 then Index.global_point r >=? min_point else true) &&
  (if negb (pystr_eqb genre_filter ALL_GENRES)
   then pystr_eqb (Index.genre r) genre_filter else true) &&
  match p with
  | Some e => cell_search re e (Index.title r) || cell_search re e (Index.keyword r)
  | None => true
  end.

Definition compiles_in (re : re_module) (keyword : pystr) (p : option (re_Pattern re))
    : Prop :=
  match p with
  | Some e => keyword <> [] /\ compile re keyword = Some e
  | None => keyword = []
  end.

(** The keyword is accepted by [re.compile] and the pattern it gives matches
    somewhere in the title or in the keywords. *)
Definition keyword_matches_in (re : re_module) (keyword : pystr) (r : Index.row) : Prop :=
  keyword <> [] ->
  exists e, compile re keyword = Some e /\
    (cell_search re e (Index.title r) = true \/
     cell_search re e (Index.keyword r) = true).

(** The index can be had: from the cache, or from a store that can be read
    on a connection with the extension.  The stories can be had. *)
Definition index_available (ss : session) : Prop :=
  cached ss <> None \/ (extension_at_load ss = true /\ at_load (seen ss) <> None).

Definition stories_available (ss : session) : Prop :=
  extension_at_fetch ss = true /\ at_fetch (seen ss) <> None.

(** * Properties *)

(** ** Strings *)

Lemma pystr_eqb_eq (a b : pystr) : pystr_eqb a b = true <-> a = b.
Proof.
  revert b; induction a as [|x a IH]; intros [|y b]; simpl; split; intro H;
    try reflexivity; try discriminate.
  - apply andb_true_iff in H as [Hx Hab].
    apply N.eqb_eq in Hx. apply IH in Hab. now subst.
  - injection H as -> ->. rewrite N.eqb_refl. simpl. now apply IH.
Qed.

Lemma pystr_eqb_neq (a b : pystr) : pystr_eqb a b = false <-> a <> b.
Proof.
  rewrite <- pystr_eqb_eq. destruct (pystr_eqb a b); split; intro H;
    try discriminate; try reflexivity. now contradiction H.
Qed.

(** ** The language of a pattern, and the matcher against it *)

Lemma matches_nil_nullable (r : regex) (s : pystr) :
  matches r s -> s = [] -> nullable r = true.
Proof.
  induction 1 as [ | c | c Hc | r1 r2 s1 s2 _ IH1 _ IH2 | r1 r2 s _ IH
                 | r1 r2 s _ IH | r | r s1 s2 _ _ _ _ ]; intro E; simpl;
    try reflexivity; try discriminate.
  - apply app_eq_nil in E as [-> ->]. now rewrite IH1, IH2.
  - now rewrite IH.
  - rewrite IH by assumption. apply orb_true_r.
Qed.

Lemma nullable_matches (r : regex) : nullable r = true <-> matches r [].
Proof.
  split; [|intro H; now apply (matches_nil_nullable H)].
  induction r as [ | | c | | r1 IH1 r2 IH2 | r1 IH1 r2 IH2 | r IH ]; simpl; intro H;
    try discriminate.
  - constructor.
  - apply andb_true_iff in H as [H1 H2].
    change (@nil N) with (@nil N ++ []). constructor; auto.
  - apply orb_true_iff in H as [H|H]; [apply m_alt_l|apply m_alt_r]; auto.
  - constructor.
Qed.

Lemma deriv_sound (c : N) (r : regex) (s : pystr) :
  matches (deriv c r) s -> matches r (c :: s).
Proof.
  revert s.
  induction r as [ | | d | | r1 IH1 r2 IH2 | r1 IH1 r2 IH2 | r IH ]; simpl; intros s H.
  - inversion H.
  - inversion H.
  - destruct (N.eqb c d) eqn:E; [|inversion H].
    apply N.eqb_eq in E. subst d. inversion H. constructor.
  - destruct (N.eqb c NEWLINE) eqn:E; [inversion H|].
    apply N.eqb_neq in E. inversion H. now constructor.
  - assert (Hcat : forall t, matches (Cat (deriv c r1) r2) t -> matches (Cat r1 r2) (c :: t)).
    { intros t Ht. inversion Ht as [ | | | ? ? s1 s2 H1 H2 | | | | ]; subst.
      change (c :: s1 ++ s2) with ((c :: s1) ++ s2). constructor; auto. }
    destruct (nullable r1) eqn:E; [|now apply Hcat].
    inversion H as [ | | | | ? ? ? H1 | ? ? ? H2 | | ]; subst; [now apply Hcat|].
    change (c :: s) with ([] ++ c :: s). constructor; [now apply nullable_matches|auto].
  - inversion H; subst; [apply m_alt_l|apply m_alt_r]; auto.
  - inversion H as [ | | | ? ? s1 s2 H1 H2 | | | | ]; subst.
    change (c :: s1 ++ s2) with ((c :: s1) ++ s2). constructor; auto.
Qed.

Lemma deriv_complete (c : N) (r : regex) (s t : pystr) :
  matches r t -> t = c :: s -> matches (deriv c r) s.
Proof.
  intro H. revert s.
  induction H as [ | d | d Hd | r1 r2 s1 s2 H1 IH1 H2 IH2 | r1 r2 t H IH
                 | r1 r2 t H IH | r | r s1 s2 H1 IH1 H2 IH2 ]; intros s E; simpl;
    try discriminate.
  - injection E as -> <-. rewrite N.eqb_refl. constructor.
  - injection E as -> <-. apply N.eqb_neq in Hd. rewrite Hd. constructor.
  - destruct s1 as [|x s1]; simpl in E.
    + rewrite (matches_nil_nullable H1 eq_refl). apply m_alt_r. now apply IH2.
    + injection E as -> <-.
      assert (matches (Cat (deriv c r1) r2) (s1 ++ s2)) by (constructor; auto).
      destruct (nullable r1); [now apply m_alt_l|assumption].
  - apply m_alt_l. now apply IH.
  - apply m_alt_r. now apply IH.
  - destruct s1 as [|x s1]; simpl in E.
    + now apply IH2.
    + injection E as -> <-. constructor; auto.
Qed.

Lemma deriv_matches (c : N) (r : regex) (s : pystr) :
  matches (deriv c r) s <-> matches r (c :: s).
Proof. split; [apply deriv_sound|intro H; now apply (deriv_complete H)]. Qed.

Lemma fullmatch_matches (r : regex) (s : pystr) :
  fullmatch r s = true <-> matches r s.
Proof.
  revert r; induction s as [|c s IH]; intro r; simpl.
  - apply nullable_matches.
  - rewrite IH. apply deriv_matches.
Qed.

(** [re_match]: some prefix of the string is in the language. *)
Lemma re_match_prefix (r : regex) (s : pystr) :
  re_match r s = true <-> exists m rest, s = m ++ rest /\ matches r m.
Proof.
  revert r; induction s as [|c s IH]; intro r; simpl.
  - rewrite orb_false_r, nullable_matches. split.
    + intro H. now exists [], [].
    + intros (m & rest & E & H). symmetry in E. apply app_eq_nil in E as [-> _].
      assumption.
  - rewrite orb_true_iff, nullable_matches, IH. split.
    + intros [H|(m & rest & -> & H)].
      * now exists [], (c :: s).
      * exists (c :: m), rest. split; [reflexivity|now apply deriv_matches].
    + intros (m & rest & E & H). destruct m as [|x m]; [now left|right].
      injection E as -> ->. exists m, rest. split; [reflexivity|now apply deriv_matches].
Qed.

(** [re_search]: some substring of the string is in the language. *)
Lemma re_search_substring (r : regex) (s : pystr) :
  re_search r s = true <-> exists pre m post, s = pre ++ m ++ post /\ matches r m.
Proof.
  induction s as [|c s IH]; simpl.
  - rewrite orb_false_r, orb_false_r, nullable_matches. split.
    + intro H. now exists [], [], [].
    + intros (pre & m & post & E & H). symmetry in E.
      apply app_eq_nil in E as [-> E]. apply app_eq_nil in E as [-> _]. assumption.
  - rewrite orb_true_iff, IH.
    change (nullable r || re_match (deriv c r) s) with (re_match r (c :: s)).
    rewrite re_match_prefix. split.
    + intros [(m & rest & E & H)|(pre & m & post & -> & H)].
      * now exists [], m, rest.
      * now exists (c :: pre), m, post.
    + intros (pre & m & post & E & H). destruct pre as [|x pre]; simpl in E.
      * left. now exists m, post.
      * right. injection E as -> ->. now exists pre, m, post.
Qed.

Lemma starts_with_prefix (k s : pystr) :
  starts_with k s = true <-> exists rest, s = k ++ rest.
Proof.
  revert s; induction k as [|x k IH]; intro s; simpl.
  - split; [intros _; now exists s|reflexivity].
  - destruct s as [|y s].
    + split; [discriminate|intros (rest & E); discriminate].
    + rewrite andb_true_iff, N.eqb_eq, IH. split.
      * intros [-> (rest & ->)]. now exists rest.
      * intros (rest & E). injection E as -> ->. split; [reflexivity|now exists rest].
Qed.

Lemma occurs_in_substring (k s : pystr) :
  occurs_in k s = true <-> exists pre post, s = pre ++ k ++ post.
Proof.
  induction s as [|c s IH].
  - simpl. rewrite orb_false_r, starts_with_prefix. split.
    + intros (rest & E). now exists [], rest.
    + intros (pre & post & E). symmetry in E. apply app_eq_nil in E as [-> E].
      now exists post.
  - cbn [occurs_in]. rewrite orb_true_iff, IH, starts_with_prefix. split.
    + intros [(rest & E)|(pre & post & ->)].
      * now exists [], rest.
      * now exists (c :: pre), post.
    + intros (pre & post & E). destruct pre as [|x pre]; simpl in E.
      * left. now exists post.
      * right. injection E as -> ->. now exists pre, post.
Qed.

(** *** Keywords without special characters *)

Lemma quantifier_special (c : N) (q : regex -> regex) :
  quantifier c = Some q -> is_special c = true.
Proof.
  unfold quantifier.
  destruct (N.eqb c (chr "*")) eqn:E1; [apply N.eqb_eq in E1; now subst|].
  destruct (N.eqb c (chr "+")) eqn:E2; [apply N.eqb_eq in E2; now subst|].
  destruct (N.eqb c (chr "?")) eqn:E3; [apply N.eqb_eq in E3; now subst|].
  discriminate.
Qed.

Lemma parse_plain_char (c : N) (p : pystr) (f : frame) (stack : list frame) :
  is_special c = false ->
  parse (c :: p) f stack = parse p (push_item f (Chr c)) stack.
Proof.
  intro H. cbn [parse].
  destruct (N.eqb c (chr "\")) eqn:E1;
    [apply N.eqb_eq in E1; subst; discriminate|].
  destruct (N.eqb c (chr "(")) eqn:E2;
    [apply N.eqb_eq in E2; subst; discriminate|].
  destruct (N.eqb c (chr ")")) eqn:E3;
    [apply N.eqb_eq in E3; subst; discriminate|].
  destruct (N.eqb c (chr "|")) eqn:E4;
    [apply N.eqb_eq in E4; subst; discriminate|].
  destruct (N.eqb c (chr ".")) eqn:E5;
    [apply N.eqb_eq in E5; subst; discriminate|].
  destruct (quantifier c) as [q|] eqn:E6.
  - apply quantifier_special in E6. congruence.
  - now rewrite H.
Qed.

Lemma parse_plain (p : pystr) (f : frame) :
  forallb (fun c => negb (is_special c)) p = true ->
  alts f = None ->
  exists e, parse p f [] = Pattern e /\
    forall m, matches e m <-> exists m0, matches (close_branch f) m0 /\ m = m0 ++ p.
Proof.
  revert f; induction p as [|c p IH]; intros f Hp Hf.
  - exists (close_frame f). split; [reflexivity|].
    unfold close_frame. rewrite Hf. intro m. split.
    + intro H. exists m. now rewrite app_nil_r.
    + intros (m0 & H & ->). now rewrite app_nil_r.
  - simpl in Hp. apply andb_true_iff in Hp as [Hc Hp]. apply negb_true_iff in Hc.
    rewrite parse_plain_char by assumption.
    destruct (IH (push_item f (Chr c)) Hp Hf) as (e & He & Hm).
    exists e. split; [assumption|]. intro m. rewrite Hm.
    unfold push_item, close_branch at 1. cbn [last items]. split.
    + intros (m0 & H & ->).
      inversion H as [ | | | ? ? s1 s2 H1 H2 | | | | ]; subst.
      inversion H2; subst. exists s1. split; [assumption|].
      now rewrite <- app_assoc.
    + intros (m0 & H & ->). exists (m0 ++ [c]). split.
      * constructor; [assumption|constructor].
      * now rewrite <- app_assoc.
Qed.

(** A keyword without special characters compiles to a pattern whose
    language is the keyword alone ... *)
Lemma re_compile_plain (keyword : pystr) :
  forallb (fun c => negb (is_special c)) keyword = true ->
  exists e, re_compile keyword = Pattern e /\ forall m, matches e m <-> m = keyword.
Proof.
  intro Hp. destruct (@parse_plain keyword frame0 Hp eq_refl) as (e & He & Hm).
  exists e. split; [assumption|]. intro m. rewrite Hm. cbn. split.
  - intros (m0 & H & ->). inversion H. reflexivity.
  - intros ->. exists []. split; [constructor|reflexivity].
Qed.

(** ... so that for such a keyword the mask of [str.contains] is the literal
    one. *)
Lemma plain_keyword_is_literal (keyword : pystr) (cell : option pystr) :
  forallb (fun c => negb (is_special c)) keyword = true ->
  exists e, re_compile keyword = Pattern e /\
    contains_cell e cell = occurs_in_cell keyword cell.
Proof.
  intro Hp. destruct (re_compile_plain keyword Hp) as (e & He & Hm).
  exists e. split; [assumption|]. destruct cell as [s|]; [|reflexivity]. simpl.
  apply eq_true_iff_eq. rewrite re_search_substring, occurs_in_substring. split.
  - intros (pre & m & post & -> & H). apply Hm in H. subst. now exists pre, post.
  - intros (pre & post & ->). exists pre, keyword, post. split; [reflexivity|now apply Hm].
Qed.

(** ** The index loader *)

Lemma index_of_row_indexes (r : Parquet.row) : indexes r (index_of_row r).
Proof.
  unfold indexes, index_of_row; simpl.
  destruct (Parquet.global_point r), (Parquet.genre r); simpl; repeat split.
Qed.

Lemma index_of_row_without_story (r : Parquet.row) :
  index_of_row (without_story r) = index_of_row r.
Proof. reflexivity. Qed.

Lemma load_index_data_available (rows : list Parquet.row) :
  load_index_data (Some rows) =
  ([Execute INSTALL_LOAD_parquet; Execute SELECT_index], Ret (map index_of_row rows)).
Proof. reflexivity. Qed.

(** C9: on a readable store [load_index_data] sends one SELECT, the one of
    the seven narrow columns, and returns one index row per parquet row in
    order, each with the narrow columns of its row, the points 0 where they
    are missing and the genre "unknown" (U+4E0D U+660E) where it is missing;
    the story column has no part in the result: two stores that differ in
    their stories only give the same index. *)
Theorem load_index_data_narrow_and_filled (rows : list Parquet.row) :
  exists df,
    load_index_data (Some rows) =
      ([Execute INSTALL_LOAD_parquet; Execute SELECT_index], Ret df) /\
    Forall2 indexes rows df /\
    (forall rows', map without_story rows' = map without_story rows ->
       load_index_data (Some rows') = load_index_data (Some rows)).
Proof.
  exists (map index_of_row rows). split; [apply load_index_data_available|]. split.
  - induction rows as [|r rows IH]; simpl; constructor; auto using index_of_row_indexes.
  - intros rows' E. rewrite !load_index_data_available. do 2 f_equal.
    rewrite <- (map_ext _ _ index_of_row_without_story rows).
    rewrite <- (map_ext _ _ index_of_row_without_story rows').
    rewrite <- (map_map without_story index_of_row rows).
    rewrite <- (map_map without_story index_of_row rows'). now rewrite E.
Qed.

(** ** The filter *)

Lemma boolean_index_map {A} (p : A -> bool) (df : list A) :
  boolean_index df (map p df) = filter p df.
Proof.
  unfold boolean_index. induction df as [|a df IH]; simpl; [reflexivity|].
  destruct (p a); simpl; now rewrite IH.
Qed.

Lemma combine_map_map {A B C} (f : A -> B) (g : A -> C) (l : list A) :
  combine (map f l) (map g l) = map (fun a => (f a, g a)) l.
Proof. induction l as [|a l IH]; simpl; [reflexivity|now rewrite IH]. Qed.

Lemma filter_true {A} (l : list A) : filter (fun _ => true) l = l.
Proof. induction l as [|a l IH]; simpl; [reflexivity|now rewrite IH]. Qed.

Lemma filter_filter {A} (p q : A -> bool) (l : list A) :
  filter q (filter p l) = filter (fun a => p a && q a) l.
Proof.
  induction l as [|a l IH]; simpl; [reflexivity|].
  destruct (p a); simpl; [destruct (q a)|]; now rewrite IH.
Qed.

Lemma min_point_step_filter (min_point : Z) (df : list Index.row) :
  min_point_step min_point df =
  filter (fun r => if min_point >? 0 then Index.global_point r >=? min_point else true) df.
Proof.
  unfold min_point_step. destruct (min_point >? 0).
  - apply boolean_index_map.
  - symmetry; apply filter_true.
Qed.

Lemma genre_step_filter (genre_filter : pystr) (df : list Index.row) :
  genre_step genre_filter df =
  filter (fun r => if negb (pystr_eqb genre_filter ALL_GENRES)
                   then pystr_eqb (Index.genre r) genre_filter else true) df.
Proof.
  unfold genre_step. destruct (negb (pystr_eqb genre_filter ALL_GENRES)).
  - apply boolean_index_map.
  - symmetry; apply filter_true.
Qed.

Lemma keyword_step_filter (keyword : pystr) (df out : list Index.row) :
  keyword_step keyword df = Ret out ->
  exists re, compiles_to keyword re /\
    out = filter (fun r => match re with
                           | Some e => contains_cell e (Index.title r)
                                       || contains_cell e (Index.keyword r)
                           | None => true
                           end) df.
Proof.
  unfold keyword_step, str_contains. destruct keyword as [|c k].
  - intros [= <-]. exists None. split; [reflexivity|]. symmetry; apply filter_true.
  - destruct (re_compile (c :: k)) as [e| |] eqn:E; simpl; try discriminate.
    intros [= <-]. exists (Some e). split; [split; [discriminate|assumption]|].
    rewrite !map_map, combine_map_map, map_map. simpl.
    apply boolean_index_map.
Qed.

(** What [filter_index] returns, when it returns. *)
Lemma filter_index_filter (min_point : Z) (genre_filter keyword : pystr)
    (df_index out : list Index.row) :
  filter_index min_point genre_filter keyword df_index = Ret out ->
  exists re, compiles_to keyword re /\
    out = filter (keeps min_point genre_filter re) df_index.
Proof.
  unfold filter_index. intro H.
  apply keyword_step_filter in H as (re & Hre & ->).
  exists re. split; [assumption|].
  rewrite genre_step_filter, min_point_step_filter, !filter_filter.
  apply filter_ext. intro r. unfold keeps. now rewrite andb_assoc.
Qed.

(** [filter_index] returns exactly when the keyword is empty or compiles. *)
Lemma filter_index_returns (min_point : Z) (genre_filter keyword : pystr)
    (df_index : list Index.row) (re : option regex) :
  compiles_to keyword re ->
  filter_index min_point genre_filter keyword df_index =
  Ret (filter (keeps min_point genre_filter re) df_index).
Proof.
  unfold filter_index. intro H.
  rewrite genre_step_filter, min_point_step_filter, filter_filter.
  destruct re as [e|]; simpl in H.
  - destruct H as [Hne Hc]. unfold keyword_step, str_contains.
    destruct keyword as [|c k]; [now contradiction Hne|]. rewrite Hc. simpl.
    rewrite !map_map, combine_map_map, map_map. simpl.
    rewrite boolean_index_map, filter_filter. reflexivity.
  - subst keyword. simpl. f_equal. apply filter_ext. intro r. unfold keeps.
    now rewrite andb_true_r.
Qed.

Lemma keeps_ok (min_point : Z) (genre_filter keyword : pystr) (re : option regex)
    (r : Index.row) :
  compiles_to keyword re ->
  keeps min_point genre_filter re r = true ->
  point_ok min_point r /\ genre_ok genre_filter r /\ keyword_matches keyword r.
Proof.
  unfold keeps. intros Hre H.
  apply andb_true_iff in H as [H Hk]. apply andb_true_iff in H as [Hp Hg].
  repeat split.
  - intro Hpos. destruct (min_point >? 0) eqn:E; [lia|lia].
  - intro Hne. apply pystr_eqb_neq in Hne. rewrite Hne in Hg. simpl in Hg.
    now apply pystr_eqb_eq.
  - intro Hne. destruct re as [e|]; simpl in Hre.
    + exists e. split; [apply Hre|]. now apply orb_true_iff.
    + now contradiction Hne.
Qed.

(** ** The sorts *)

Lemma insert_row_perm (b : bool) (a : Index.row) (l : list Index.row) :
  Permutation (a :: l) (insert_row b a l).
Proof.
  induction l as [|x l IH]; simpl; [reflexivity|].
  match goal with |- context [if ?c then _ else _] => destruct c end.
  - reflexivity.
  - rewrite perm_swap. now constructor.
Qed.

Lemma insertion_sort_perm (b : bool) (df : list Index.row) :
  Permutation df (insertion_sort b df).
Proof.
  induction df as [|a df IH]; simpl; [reflexivity|].
  rewrite <- insert_row_perm. now constructor.
Qed.

Lemma insert_row_sorted (b : bool) (a : Index.row) (l : list Index.row) :
  StronglySorted point_ge l -> StronglySorted point_ge (insert_row b a l).
Proof.
  induction 1 as [|x l Hl IH Hx]; simpl.
  - repeat constructor.
  - match goal with |- context [if ?c then _ else _] => destruct c eqn:E end.
    + assert (Hax : point_ge a x) by (unfold point_ge; destruct b; simpl in E; lia).
      constructor; [now constructor|]. constructor; [assumption|].
      eapply Forall_impl; [|exact Hx]. unfold point_ge in *. intros; lia.
    + constructor; [assumption|].
      eapply Permutation_Forall; [apply insert_row_perm|].
      constructor; [|assumption]. unfold point_ge. destruct b; simpl in E; lia.
Qed.

Lemma insertion_sort_sorted (b : bool) (df : list Index.row) :
  StronglySorted point_ge (insertion_sort b df).
Proof.
  induction df as [|a df IH]; simpl; [constructor|now apply insert_row_sorted].
Qed.

Lemma insertion_sort_sorts (b : bool) : sorts_by_point_desc (insertion_sort b).
Proof. intro df. split; [apply insertion_sort_perm|apply insertion_sort_sorted]. Qed.

(** A row inserted in front of its ties keeps every score class in order. *)
Lemma insert_row_with_point (p : Z) (a : Index.row) (l : list Index.row) :
  with_point p (insert_row true a l) = with_point p (a :: l).
Proof.
  induction l as [|x l IH]; [reflexivity|].
  simpl insert_row. destruct (Index.global_point a >=? Index.global_point x) eqn:E;
    [reflexivity|].
  unfold with_point in *. simpl in *. rewrite IH.
  destruct (Index.global_point x =? p) eqn:Ex, (Index.global_point a =? p) eqn:Ea;
    try reflexivity. lia.
Qed.

Lemma sort_stable_keeps_ties (df : list Index.row) :
  ties_in_index_order df (sort_stable df).
Proof.
  intro p. unfold sort_stable. induction df as [|a df IH]; [reflexivity|].
  simpl insertion_sort. rewrite insert_row_with_point.
  unfold with_point in *. simpl. now rewrite IH.
Qed.

(** ** The view *)

Lemma view_inv (sort_values : list Index.row -> list Index.row) (min_point : Z)
    (genre_filter keyword : pystr) (df_index out : list Index.row) :
  view sort_values min_point genre_filter keyword df_index = Ret out ->
  exists kept,
    filter_index min_point genre_filter keyword df_index = Ret kept /\
    out = sort_values kept.
Proof.
  unfold view.
  destruct (filter_index min_point genre_filter keyword df_index) as [kept| |];
    simpl; try discriminate.
  intros [= <-]. now exists kept.
Qed.

(** C1, as stated, fails: with the keyword "a.c" the view returns a row whose
    title is "abc" and whose keywords are null; "a.c" occurs in neither. *)
Lemma view_keyword_not_literal :
  view sort_stable 0 ALL_GENRES (lit "a.c") [row_abc] = Ret [row_abc] /\
  ~ keyword_occurs (lit "a.c") row_abc.
Proof.
  split; [reflexivity|].
  intro H. destruct H as [H|H]; [discriminate|vm_compute in H; discriminate|discriminate].
Qed.

(** For a keyword without special characters the pattern match is the
    occurrence of the keyword: the rows of the view then do contain it. *)
Lemma view_plain_keyword_occurs
    (sort_values : list Index.row -> list Index.row)
    (min_point : Z) (genre_filter keyword : pystr) (df_index out : list Index.row) :
  sorts_by_point_desc sort_values ->
  forallb (fun c => negb (is_special c)) keyword = true ->
  view sort_values min_point genre_filter keyword df_index = Ret out ->
  forall r, In r out -> keyword_occurs keyword r.
Proof.
  intros Hs Hplain Hv r Hr Hne. apply view_inv in Hv as (kept & Hk & ->).
  apply filter_index_filter in Hk as (re & Hre & ->).
  destruct (Hs (filter (keeps min_point genre_filter re) df_index)) as [Hp _].
  apply (Permutation_in _ (Permutation_sym Hp)) in Hr.
  apply filter_In in Hr as [_ Hr].
  destruct (@keeps_ok _ _ _ _ _ Hre Hr) as (_ & _ & Hk).
  destruct (Hk Hne) as (e & He & Hm).
  destruct (@plain_keyword_is_literal keyword (Index.title r) Hplain) as (e1 & He1 & Ht).
  destruct (@plain_keyword_is_literal keyword (Index.keyword r) Hplain) as (e2 & He2 & Hw).
  rewrite He in He1, He2. injection He1 as <-. injection He2 as <-.
  now rewrite <- Ht, <- Hw.
Qed.

(** With a stable sort the rows of equal points do stay in index order. *)
Lemma view_stable_sort_keeps_ties (min_point : Z) (genre_filter keyword : pystr)
    (df_index kept out : list Index.row) :
  filter_index min_point genre_filter keyword df_index = Ret kept ->
  view sort_stable min_point genre_filter keyword df_index = Ret out ->
  ties_in_index_order kept out.
Proof.
  intros Hk Hv. apply view_inv in Hv as (kept' & Hk' & ->).
  rewrite Hk in Hk'. injection Hk' as <-. apply sort_stable_keeps_ties.
Qed.

(** C3 fails on the code: the keyword is compiled as a regular expression,
    and a keyword that is not one, here "(", makes the filter raise re.error
    whatever the index and the other inputs; the exception is caught nowhere,
    so a run with that keyword ends with it right after the index is loaded,
    before anything is displayed. *)
Theorem view_raises_on_open_parenthesis
    (sort_values : list Index.row -> list Index.row)
    (min_point : Z) (genre_filter : pystr) (df_index : list Index.row)
    (rows : list Parquet.row) (s : store) (current_page : Z) :
  view sort_values min_point genre_filter (lit "(") df_index = Raise re_error /\
  main sort_values {| at_load := Some rows; at_fetch := s |}
       min_point genre_filter (lit "(") current_page =
  ([Execute INSTALL_LOAD_parquet; Execute SELECT_index], Uncaught re_error).
Proof.
  assert (Hv : forall df, view sort_values min_point genre_filter (lit "(") df
                          = Raise re_error) by reflexivity.
  split; [apply Hv|].
  unfold main. cbn [at_load]. rewrite load_index_data_available.
  unfold body. now rewrite Hv.
Qed.

(** The filter does return for the empty keyword and for every keyword that
    compiles. *)
Lemma view_returns (sort_values : list Index.row -> list Index.row)
    (min_point : Z) (genre_filter keyword : pystr) (df_index : list Index.row)
    (re : option regex) :
  compiles_to keyword re ->
  view sort_values min_point genre_filter keyword df_index =
  Ret (sort_values (filter (keeps min_point genre_filter re) df_index)).
Proof. intro H. unfold view. now rewrite filter_index_returns with (re := re). Qed.

(** ** The paginator *)

Lemma total_pages_ceiling (page_size total_rows : Z) :
  page_size > 0 -> 0 <= total_rows ->
  exists n, total_pages page_size total_rows = Ret n /\
    (total_rows = 0 -> n = 1) /\
    (total_rows > 0 -> (n - 1) * page_size < total_rows <= n * page_size).
Proof.
  intros Hps Ht. unfold total_pages, math_ceil_div.
  destruct (total_rows >? 0) eqn:E.
  - destruct (page_size =? 0) eqn:E0; [lia|].
    exists (- (- total_rows / page_size)). split; [reflexivity|]. split; [lia|].
    intros _.
    pose proof (Z.mul_div_le (- total_rows) page_size ltac:(lia)).
    pose proof (Z.mul_succ_div_gt (- total_rows) page_size ltac:(lia)).
    nia.
  - exists 1. split; [reflexivity|]. split; [reflexivity|lia].
Qed.

Lemma firstn_length_min {A} (n : nat) (l : list A) :
  firstn (Nat.min n (List.length l)) l = firstn n l.
Proof.
  destruct (Nat.le_ge_cases n (List.length l)) as [H|H].
  - now rewrite Nat.min_l.
  - rewrite Nat.min_r by assumption. now rewrite !firstn_all2 by lia.
Qed.

(** A slice with bounds [0 <= start <= stop] is the usual one. *)
Lemma iloc_nonneg {A} (df : list A) (start stop : Z) :
  0 <= start <= stop ->
  iloc df start stop = firstn (Z.to_nat (stop - start)) (skipn (Z.to_nat start) df).
Proof.
  intros H. unfold iloc, slice_bound.
  destruct (start <? 0) eqn:E1; [lia|]. destruct (stop <? 0) eqn:E2; [lia|].
  destruct (Z_le_gt_dec start (Z.of_nat (List.length df))) as [Hle|Hgt].
  - rewrite (Z.min_l start) by assumption.
    rewrite <- (firstn_length_min (Z.to_nat (stop - start))).
    rewrite length_skipn. f_equal. lia.
  - rewrite !skipn_all2 by lia. now rewrite !firstn_nil.
Qed.

Lemma page_slice_nonneg {A} (page_size : Z) (df_view : list A) (current_page : Z) :
  page_size > 0 -> 1 <= current_page ->
  page_slice page_size df_view current_page =
  firstn (Z.to_nat page_size) (skipn (Z.to_nat ((current_page - 1) * page_size)) df_view).
Proof.
  intros Hps Hp. unfold page_slice. rewrite iloc_nonneg by nia.
  do 2 f_equal. lia.
Qed.

Lemma page_slice_zero {A} (page_size : Z) (df_view : list A) :
  page_size > 0 -> page_slice page_size df_view 0 = [].
Proof.
  intro Hps. unfold page_slice, iloc, slice_bound.
  destruct ((0 - 1) * page_size <? 0) eqn:E1; [|lia].
  destruct ((0 - 1) * page_size + page_size <? 0) eqn:E2; [lia|].
  replace (Z.to_nat _) with 0%nat by lia. reflexivity.
Qed.

Lemma page_slice_beyond {A} (page_size : Z) (df_view : list A) (current_page : Z) :
  page_size > 0 -> 1 <= current_page ->
  Z.of_nat (List.length df_view) <= (current_page - 1) * page_size ->
  page_slice page_size df_view current_page = [].
Proof.
  intros Hps Hp Hlen. rewrite page_slice_nonneg by assumption.
  assert (0 <= (current_page - 1) * page_size) by nia.
  rewrite skipn_all2 by lia. apply firstn_nil.
Qed.

Lemma page_slice_inside {A} (page_size : Z) (df_view : list A) (current_page : Z) :
  page_size > 0 -> 1 <= current_page ->
  (current_page - 1) * page_size < Z.of_nat (List.length df_view) ->
  page_slice page_size df_view current_page <> [].
Proof.
  intros Hps Hp Hlen. rewrite page_slice_nonneg by assumption.
  intro E. apply (f_equal (@List.length A)) in E.
  rewrite length_firstn, length_skipn in E. cbn [List.length] in E.
  assert (0 <= (current_page - 1) * page_size) by nia. lia.
Qed.

(** C4: for a positive page size the paginator returns the slice with a page
    count n that is 1 for an empty view and the ceiling of
    total_rows / page_size otherwise (the n with (n-1) * page_size <
    total_rows <= n * page_size); the slice of an empty view is empty, and
    the slice of a page number in 1..n is empty only for an empty view. *)
Theorem paginate_page_count {A} (page_size : Z) (df_view : list A) (current_page : Z) :
  page_size > 0 ->
  exists n,
    paginate page_size df_view current_page =
      Ret (page_slice page_size df_view current_page, n) /\
    (df_view = [] -> n = 1 /\ page_slice page_size df_view current_page = []) /\
    (df_view <> [] ->
       (n - 1) * page_size < Z.of_nat (List.length df_view) <= n * page_size) /\
    (1 <= current_page <= n ->
       page_slice page_size df_view current_page = [] -> df_view = []).
Proof.
  intro Hps.
  destruct (@total_pages_ceiling page_size (Z.of_nat (List.length df_view)) Hps ltac:(lia))
    as (n & Hn & H0 & Hpos).
  exists n. unfold paginate. rewrite Hn. simpl. split; [reflexivity|].
  split; [|split].
  - intros ->. split; [now apply H0|].
    unfold page_slice, iloc. simpl. now rewrite skipn_nil, firstn_nil.
  - intro Hne. apply Hpos. destruct df_view; [now contradiction Hne|simpl; lia].
  - intros Hp Hempty. destruct df_view as [|a df]; [reflexivity|].
    exfalso. revert Hempty. apply page_slice_inside; [assumption|lia|].
    specialize (Hpos ltac:(simpl; lia)). nia.
Qed.

Lemma paginate_page_count_witness :
  exists n,
    paginate 2 [10; 20; 30; 40; 50] 3 = Ret (page_slice 2 [10; 20; 30; 40; 50] 3, n) /\
    ([10; 20; 30; 40; 50] = [] -> n = 1 /\ page_slice 2 [10; 20; 30; 40; 50] 3 = []) /\
    ([10; 20; 30; 40; 50] <> [] ->
       (n - 1) * 2 < Z.of_nat (List.length [10; 20; 30; 40; 50]) <= n * 2) /\
    (1 <= 3 <= n -> page_slice 2 [10; 20; 30; 40; 50] 3 = [] -> [10; 20; 30; 40; 50] = []).
Proof. apply (@paginate_page_count Z 2 [10; 20; 30; 40; 50] 3). lia. Defined.

Lemma firstn_add_skipn {A} (a b : nat) (l : list A) :
  firstn (a + b) l = firstn a l ++ firstn b (skipn a l).
Proof.
  revert l; induction a as [|a IH]; intro l; [reflexivity|].
  destruct l as [|x l]; simpl; [now rewrite firstn_nil|]. now rewrite IH.
Qed.

Lemma pages_upto_firstn {A} (page_size : Z) (df_view : list A) (k : nat) :
  page_size > 0 ->
  pages_upto page_size df_view k = firstn (Z.to_nat (Z.of_nat k * page_size)) df_view.
Proof.
  intro Hps. induction k as [|k IH]; [reflexivity|].
  cbn [pages_upto]. rewrite IH, page_slice_nonneg by lia.
  replace (Z.of_nat (S k) - 1) with (Z.of_nat k) by lia.
  rewrite <- firstn_add_skipn. f_equal. lia.
Qed.

(** C5: for a positive page size, the slices of the pages 1 .. total_pages,
    one after the other, are the view itself. *)
Theorem pages_concat_is_view {A} (page_size : Z) (df_view : list A) (n : Z) :
  page_size > 0 ->
  total_pages page_size (Z.of_nat (List.length df_view)) = Ret n ->
  pages_upto page_size df_view (Z.to_nat n) = df_view.
Proof.
  intros Hps Hn.
  destruct (@total_pages_ceiling page_size (Z.of_nat (List.length df_view)) Hps ltac:(lia))
    as (n' & Hn' & H0 & Hpos).
  rewrite Hn in Hn'. injection Hn' as <-.
  rewrite pages_upto_firstn by assumption. apply firstn_all2.
  destruct df_view as [|a df]; [simpl; lia|].
  specialize (Hpos ltac:(simpl; lia)). nia.
Qed.

Lemma pages_concat_is_view_witness :
  pages_upto 2 [10; 20; 30; 40; 50] (Z.to_nat 3) = [10; 20; 30; 40; 50].
Proof.
  apply (@pages_concat_is_view Z 2 [10; 20; 30; 40; 50] 3); [lia|reflexivity].
Defined.

(** C6, as stated, fails: for a view of three rows and pages of two, page 0
    and page total_pages + 1 = 3 both return an (empty) slice; no
    InvalidPageError is raised. *)
Lemma paginate_outside_range_returns :
  paginate 2 [10; 20; 30] 0 = Ret ([], 2) /\
  paginate 2 [10; 20; 30] 3 = Ret ([], 2) /\
  paginate 2 [10; 20; 30] 0 <> Raise InvalidPageError /\
  paginate 2 [10; 20; 30] 3 <> Raise InvalidPageError.
Proof. repeat split; discriminate. Qed.

(** C6, amended: the slicing raises nothing for a page number outside
    1 .. total_pages; for page 0 and for every page above total_pages it
    returns the empty slice together with total_pages.  (The range itself is
    kept by the bounds given to the page widget.) *)
Theorem paginate_outside_range_empty {A} (page_size : Z) (df_view : list A)
    (current_page n : Z) :
  page_size > 0 ->
  total_pages page_size (Z.of_nat (List.length df_view)) = Ret n ->
  current_page = 0 \/ n < current_page ->
  paginate page_size df_view current_page = Ret ([], n).
Proof.
  intros Hps Hn Hout. unfold paginate. rewrite Hn. simpl. do 2 f_equal.
  destruct (@total_pages_ceiling page_size (Z.of_nat (List.length df_view)) Hps ltac:(lia))
    as (n' & Hn' & H0 & Hpos).
  rewrite Hn in Hn'. injection Hn' as <-.
  destruct Hout as [->|Hgt]; [now apply page_slice_zero|].
  assert (1 <= n).
  { destruct df_view as [|a df]; [specialize (H0 eq_refl); lia|].
    specialize (Hpos ltac:(simpl; lia)). simpl in Hpos. nia. }
  apply page_slice_beyond; [assumption|lia|].
  destruct df_view as [|a df]; [simpl; nia|].
  specialize (Hpos ltac:(simpl; lia)). nia.
Qed.

Lemma paginate_outside_range_empty_witness :
  paginate 2 [10; 20; 30] 3 = Ret ([], 2).
Proof.
  apply (@paginate_outside_range_empty Z 2 [10; 20; 30] 3 2);
    [lia|reflexivity|right; lia].
Defined.

(** For a positive page size the paginator raises nothing at all. *)
Lemma paginate_returns {A} (page_size : Z) (df_view : list A) (current_page : Z) :
  page_size > 0 ->
  exists slice n, paginate page_size df_view current_page = Ret (slice, n).
Proof.
  intro Hps.
  destruct (@total_pages_ceiling page_size (Z.of_nat (List.length df_view))
              Hps ltac:(lia)) as (n & Hn & _).
  unfold paginate. rewrite Hn. simpl. eauto.
Qed.

(** ** The detail fetch *)

Lemma ncode_in_In (ids : list pystr) (n : pystr) :
  ncode_in ids n = true -> In n ids.
Proof.
  unfold ncode_in. intro H. apply existsb_exists in H as (x & Hx & E).
  apply pystr_eqb_eq in E. now subst.
Qed.

Lemma story_rows_keys (ids : list pystr) (rows : list Parquet.row) :
  incl (map fst (story_rows ids rows)) ids.
Proof.
  intros k Hk. unfold story_rows in Hk. rewrite map_map in Hk. simpl in Hk.
  apply in_map_iff in Hk as (r & <- & Hr). apply filter_In in Hr as [_ Hr].
  now apply ncode_in_In.
Qed.

Lemma fetch_stories_trace (s : store) (ids : list pystr) :
  exists o, fetch_stories s ids =
    ([Execute INSTALL_LOAD_parquet; Execute (SELECT_story_IN ids)], o).
Proof. destruct s; eexists; reflexivity. Qed.

(** C7: when the page has no row (no id) the detail block returns the empty
    frame and executes nothing; otherwise what it executes is the loading of
    the parquet extension and one SELECT, the one restricted to
    [ncode IN (ids)]; and the ncodes of the rows that SELECT returns are
    among the ids. *)
Theorem detail_block_queries (s : store) (df_display_index : list Index.row) :
  let ids := map Index.ncode df_display_index in
  (ids = [] -> detail_block s df_display_index = ([], Ret [])) /\
  (ids <> [] -> exists o,
     detail_block s df_display_index =
       ([Execute INSTALL_LOAD_parquet; Execute (SELECT_story_IN ids)], o)) /\
  (forall t df_stories,
     fetch_stories s ids = (t, Ret df_stories) -> incl (map fst df_stories) ids).
Proof.
  intro ids. split; [|split].
  - destruct df_display_index; [reflexivity|discriminate].
  - intro Hne. destruct df_display_index as [|r df]; [now contradiction Hne|].
    destruct s; eexists; reflexivity.
  - intros t df_stories H. destruct s as [rows|]; [|discriminate].
    injection H as _ <-. apply story_rows_keys.
Qed.

Lemma detail_block_queries_witness :
  let s := Some [parquet_other; parquet_abc] in
  let ids := map Index.ncode [row_abc] in
  (ids = [] -> detail_block s [row_abc] = ([], Ret [])) /\
  (ids <> [] -> exists o,
     detail_block s [row_abc] =
       ([Execute INSTALL_LOAD_parquet; Execute (SELECT_story_IN ids)], o)) /\
  (forall t df_stories,
     fetch_stories s ids = (t, Ret df_stories) -> incl (map fst df_stories) ids).
Proof. exact (detail_block_queries (Some [parquet_other; parquet_abc]) [row_abc]). Defined.

(** ** A run with the store lost before the story query *)

(** C8, as stated, fails: with the store readable for the index and not for
    the stories, the run of a one-row page ends with the exception of DuckDB
    leaving the script after the title and the page widget; no table and no
    warning are displayed. *)
Lemma store_lost_at_fetch_aborts_run :
  main sort_stable {| at_load := Some [parquet_abc]; at_fetch := None |}
       0 ALL_GENRES [] 1 =
  ([Execute INSTALL_LOAD_parquet; Execute SELECT_index;
    st_title 1; st_number_input 1;
    Execute INSTALL_LOAD_parquet; Execute (SELECT_story_IN [lit "n0001aa"])],
   Uncaught duckdb_IOException).
Proof. reflexivity. Qed.

Lemma bind_lift_ret {A B} (a : A) (k : A -> M B) : bind (lift (Ret a)) k = k a.
Proof. unfold bind, lift. now destruct (k a). Qed.

Lemma bind_emit {B} (ev : event) (k : unit -> M B) :
  bind (emit ev) k = (ev :: fst (k tt), snd (k tt)).
Proof. unfold bind, emit. now destruct (k tt). Qed.

(** C8, amended: when the store cannot be read by the story query of a page
    that has at least one row, the exception is not caught: the run ends with
    it right after that query, having displayed the title and the page
    widget and neither the table nor a warning. *)
Theorem fetch_failure_is_uncaught
    (sort_values : list Index.row -> list Index.row)
    (rows : list Parquet.row) (min_point : Z) (genre_filter keyword : pystr)
    (current_page : Z) (df_view : list Index.row) :
  view sort_values min_point genre_filter keyword (map index_of_row rows) = Ret df_view ->
  page_slice PAGE_SIZE df_view current_page <> [] ->
  exists n,
    total_pages PAGE_SIZE (Z.of_nat (List.length df_view)) = Ret n /\
    main sort_values {| at_load := Some rows; at_fetch := None |}
         min_point genre_filter keyword current_page =
    ([Execute INSTALL_LOAD_parquet; Execute SELECT_index;
      st_title (Z.of_nat (List.length df_view)); st_number_input n;
      Execute INSTALL_LOAD_parquet;
      Execute (SELECT_story_IN
                 (map Index.ncode (page_slice PAGE_SIZE df_view current_page)))],
     Uncaught duckdb_IOException).
Proof.
  intros Hv Hpage.
  destruct (@total_pages_ceiling PAGE_SIZE (Z.of_nat (List.length df_view))
              ltac:(unfold PAGE_SIZE; lia) ltac:(lia)) as (n & Hn & _).
  exists n. split; [assumption|].
  unfold main. cbn [at_load]. rewrite load_index_data_available. unfold body.
  rewrite Hv, bind_lift_ret, bind_emit, Hn, bind_lift_ret, bind_emit.
  cbn [at_fetch fst snd].
  destruct (page_slice PAGE_SIZE df_view current_page) as [|r page] eqn:E;
    [now contradiction Hpage|].
  reflexivity.
Qed.

Lemma fetch_failure_is_uncaught_witness :
  exists n,
    total_pages PAGE_SIZE (Z.of_nat (List.length [row_abc])) = Ret n /\
    main sort_stable {| at_load := Some [parquet_abc]; at_fetch := None |}
         0 ALL_GENRES [] 1 =
    ([Execute INSTALL_LOAD_parquet; Execute SELECT_index;
      st_title (Z.of_nat (List.length [row_abc])); st_number_input n;
      Execute INSTALL_LOAD_parquet;
      Execute (SELECT_story_IN (map Index.ncode (page_slice PAGE_SIZE [row_abc] 1)))],
     Uncaught duckdb_IOException).
Proof.
  apply (@fetch_failure_is_uncaught sort_stable [parquet_abc] 0 ALL_GENRES [] 1 [row_abc]).
  - reflexivity.
  - vm_compute. discriminate.
Defined.

(** ** The keyword is a pattern *)

(** C10: the keyword is read as a regular expression.  "a.c" keeps the row
    titled "abc", in which "a.c" does not occur, and "ab*c" drops the row
    titled "ab*c", in which it does occur; the match is case-sensitive
    ("dragon" does not keep "Dragon Quest", "Dragon" does); and a row is
    kept only through a title or a keywords field that is not null and in
    which the pattern matches. *)
Theorem keyword_is_a_regular_expression :
  (filter_index 0 ALL_GENRES (lit "a.c") [row_abc; row_star] = Ret [row_abc] /\
   literal_filter (lit "a.c") [row_abc; row_star] = [] /\
   filter_index 0 ALL_GENRES (lit "ab*c") [row_abc; row_star] = Ret [row_abc] /\
   literal_filter (lit "ab*c") [row_abc; row_star] = [row_star]) /\
  (filter_index 0 ALL_GENRES (lit "dragon") [row_dragon] = Ret [] /\
   filter_index 0 ALL_GENRES (lit "Dragon") [row_dragon] = Ret [row_dragon]) /\
  (forall min_point genre_filter keyword df_index out r,
     keyword <> [] ->
     filter_index min_point genre_filter keyword df_index = Ret out ->
     In r out ->
     exists e, re_compile keyword = Pattern e /\
       ((exists s, Index.title r = Some s /\ re_search e s = true) \/
        (exists s, Index.keyword r = Some s /\ re_search e s = true))).
Proof.
  split; [repeat split|split; [split; reflexivity|]].
  intros min_point genre_filter keyword df_index out r Hne Hf Hr.
  apply filter_index_filter in Hf as (re & Hre & ->).
  apply filter_In in Hr as [_ Hr].
  destruct (@keeps_ok _ _ _ _ _ Hre Hr) as (_ & _ & Hk).
  destruct (Hk Hne) as (e & He & Hm). exists e. split; [assumption|].
  unfold contains_cell in Hm.
  destruct Hm as [Hm|Hm]; [left|right].
  - destruct (Index.title r) as [s|]; [now exists s|discriminate].
  - destruct (Index.keyword r) as [s|]; [now exists s|discriminate].
Qed.

Lemma keyword_is_a_regular_expression_witness :
  exists e, re_compile (lit "a.c") = Pattern e /\
    ((exists s, Index.title row_abc = Some s /\ re_search e s = true) \/
     (exists s, Index.keyword row_abc = Some s /\ re_search e s = true)).
Proof.
  destruct keyword_is_a_regular_expression as (_ & _ & H).
  apply (H 0 ALL_GENRES (lit "a.c") [row_abc; row_star] [row_abc] row_abc).
  - discriminate.
  - reflexivity.
  - simpl. now left.
Defined.

(** * Further properties of the script *)

(** ** The filter, beyond the claims *)

Lemma compiles_to_unique (keyword : pystr) (re1 re2 : option regex) :
  compiles_to keyword re1 -> compiles_to keyword re2 -> re1 = re2.
Proof.
  destruct re1 as [e1|], re2 as [e2|]; simpl.
  - intros [_ H1] [_ H2]. rewrite H1 in H2. now injection H2 as ->.
  - intros [H _] E. now contradiction H.
  - intros E [H _]. now contradiction H.
  - reflexivity.
Qed.

Lemma ok_keeps (min_point : Z) (genre_filter keyword : pystr) (re : option regex)
    (r : Index.row) :
  compiles_to keyword re ->
  point_ok min_point r -> genre_ok genre_filter r -> keyword_matches keyword r ->
  keeps min_point genre_filter re r = true.
Proof.
  unfold keeps, point_ok, genre_ok, keyword_matches. intros Hre Hp Hg Hk.
  apply andb_true_iff; split; [apply andb_true_iff; split|].
  - destruct (min_point >? 0) eqn:E; [|reflexivity]. specialize (Hp ltac:(lia)). lia.
  - destruct (pystr_eqb genre_filter ALL_GENRES) eqn:E; [reflexivity|]. simpl.
    apply pystr_eqb_eq. apply Hg. now apply pystr_eqb_neq.
  - destruct re as [e|]; [|reflexivity]. destruct Hre as [Hne Hc].
    destruct (Hk Hne) as (e' & He' & Hm). rewrite Hc in He'. injection He' as <-.
    now apply orb_true_iff.
Qed.

(** A threshold of zero or less switches the points predicate off. *)
Lemma filter_index_nonpositive_min_point (min_point : Z)
    (genre_filter keyword : pystr) (df_index : list Index.row) :
  min_point <= 0 ->
  filter_index min_point genre_filter keyword df_index =
  filter_index 0 genre_filter keyword df_index.
Proof.
  intro H. unfold filter_index, min_point_step.
  destruct (min_point >? 0) eqn:E; [lia|reflexivity].
Qed.

(** X3: raising the threshold only removes rows: what the filter keeps for
    the higher threshold it keeps for the lower one, the other inputs being
    the same. *)
Theorem filter_index_min_point_monotone (min_point min_point' : Z)
    (genre_filter keyword : pystr) (df_index out out' : list Index.row) :
  min_point <= min_point' ->
  filter_index min_point genre_filter keyword df_index = Ret out ->
  filter_index min_point' genre_filter keyword df_index = Ret out' ->
  incl out' out.
Proof.
  intros Hle H H'.
  apply filter_index_filter in H as (re & Hre & ->).
  apply filter_index_filter in H' as (re' & Hre' & ->).
  rewrite (@compiles_to_unique keyword re' re Hre' Hre).
  intros r Hr. apply filter_In in Hr as [Hin Hr]. apply filter_In.
  split; [assumption|]. unfold keeps in *.
  apply andb_true_iff in Hr as [Hr Hk]. apply andb_true_iff in Hr as [Hp Hg].
  rewrite Hk, Hg, !andb_true_r.
  destruct (min_point >? 0) eqn:E; [|reflexivity].
  destruct (min_point' >? 0) eqn:E'; lia.
Qed.

Lemma filter_index_min_point_monotone_witness :
  incl [row_abc] [row_abc; row_dragon].
Proof.
  apply (@filter_index_min_point_monotone 2 5 ALL_GENRES []
           [row_low; row_abc; row_dragon] [row_abc; row_dragon] [row_abc]).
  - lia.
  - reflexivity.
  - reflexivity.
Defined.

(** X4: for a non-empty keyword without special characters the filter is
    the literal one: it keeps the rows that pass the points and genre
    predicates and in whose title or keywords the keyword occurs. *)
Theorem filter_index_plain_keyword (min_point : Z) (genre_filter keyword : pystr)
    (df_index : list Index.row) :
  keyword <> [] -> plain keyword = true ->
  filter_index min_point genre_filter keyword df_index =
  Ret (filter (keeps_literal min_point genre_filter keyword) df_index).
Proof.
  intros Hne Hplain.
  destruct (re_compile_plain keyword Hplain) as (e & He & _).
  rewrite (@filter_index_returns min_point genre_filter keyword df_index (Some e))
    by (split; assumption).
  f_equal. apply filter_ext. intro r. unfold keeps_literal, keeps.
  destruct (@plain_keyword_is_literal keyword (Index.title r) Hplain) as (e1 & He1 & Ht).
  destruct (@plain_keyword_is_literal keyword (Index.keyword r) Hplain) as (e2 & He2 & Hw).
  rewrite He in He1, He2. injection He1 as <-. injection He2 as <-.
  now rewrite Ht, Hw, andb_true_r.
Qed.

Lemma filter_index_plain_keyword_witness :
  filter_index 0 ALL_GENRES (lit "abc") [row_low; row_abc; row_dragon] =
  Ret (filter (keeps_literal 0 ALL_GENRES (lit "abc")) [row_low; row_abc; row_dragon]).
Proof.
  apply (@filter_index_plain_keyword 0 ALL_GENRES (lit "abc")
           [row_low; row_abc; row_dragon]).
  - discriminate.
  - reflexivity.
Defined.

(** X5: filtering what the filter returned, with the same inputs, changes
    nothing. *)
Theorem filter_index_idempotent (min_point : Z) (genre_filter keyword : pystr)
    (df_index out : list Index.row) :
  filter_index min_point genre_filter keyword df_index = Ret out ->
  filter_index min_point genre_filter keyword out = Ret out.
Proof.
  intro H. apply filter_index_filter in H as (re & Hre & ->).
  rewrite (@filter_index_returns min_point genre_filter keyword _ re Hre).
  f_equal. rewrite filter_filter. apply filter_ext. intro r.
  now destruct (keeps min_point genre_filter re r).
Qed.

Lemma filter_index_idempotent_witness :
  filter_index 2 ALL_GENRES (lit "a.c") [row_abc] = Ret [row_abc].
Proof.
  apply (@filter_index_idempotent 2 ALL_GENRES (lit "a.c")
           [row_low; row_abc; row_dragon] [row_abc]).
  reflexivity.
Defined.

(** ** The pages, beyond the claims *)

(** The rows of a window of a frame are rows of the frame, from the start
    of the window on. *)
Lemma window_rows {A} (start len : nat) (df : list A) (x : A) :
  In x (firstn len (skipn start df)) -> In x (skipn start df) /\ In x df.
Proof.
  assert (Hfirst : forall (k : nat) (l : list A), In x (firstn k l) -> In x l).
  { induction k as [|k IH]; intros [|y l]; simpl; try contradiction.
    intros [->|H]; [now left|right; now apply IH]. }
  assert (Hskip : forall (k : nat) (l : list A), In x (skipn k l) -> In x l).
  { induction k as [|k IH]; intros [|y l]; simpl; try contradiction; auto. }
  intro H. apply Hfirst in H. split; [assumption|now apply Hskip in H].
Qed.

Lemma page_slice_length_le {A} (page_size : Z) (df_view : list A) (current_page : Z) :
  page_size > 0 ->
  Z.of_nat (List.length (page_slice page_size df_view current_page)) <= page_size.
Proof.
  intro Hps. unfold page_slice, iloc. rewrite length_firstn. unfold slice_bound.
  destruct ((current_page - 1) * page_size <? 0) eqn:E1;
    destruct ((current_page - 1) * page_size + page_size <? 0) eqn:E2; lia.
Qed.

(** X6: whatever the page number, also zero or negative, a slice has at
    most page_size rows, all of them rows of the view. *)
Theorem page_slice_bounded {A} (page_size : Z) (df_view : list A) (current_page : Z) :
  page_size > 0 ->
  Z.of_nat (List.length (page_slice page_size df_view current_page)) <= page_size /\
  incl (page_slice page_size df_view current_page) df_view.
Proof.
  intro Hps. split; [now apply page_slice_length_le|].
  unfold page_slice, iloc. intros a Ha. now apply window_rows in Ha.
Qed.

Lemma page_slice_bounded_witness :
  Z.of_nat (List.length (page_slice 2 [10; 20; 30; 40; 50] (-1))) <= 2 /\
  incl (page_slice 2 [10; 20; 30; 40; 50] (-1)) [10; 20; 30; 40; 50].
Proof. apply (@page_slice_bounded Z 2 [10; 20; 30; 40; 50] (-1)). lia. Defined.

(** X7: every page before the last one is full, and the last page holds the
    remainder: total_rows - (total_pages - 1) * page_size rows, between 1
    and page_size of them when the view is not empty. *)
Theorem page_slice_length {A} (page_size : Z) (df_view : list A) (current_page n : Z) :
  page_size > 0 ->
  total_pages page_size (Z.of_nat (List.length df_view)) = Ret n ->
  1 <= current_page <= n ->
  let rows := Z.of_nat (List.length (page_slice page_size df_view current_page)) in
  (current_page < n -> rows = page_size) /\
  (current_page = n ->
     rows = Z.of_nat (List.length df_view) - (n - 1) * page_size /\
     (df_view <> [] -> 1 <= rows <= page_size)).
Proof.
  intros Hps Hn Hp rows. subst rows.
  destruct (@total_pages_ceiling page_size (Z.of_nat (List.length df_view))
              Hps ltac:(lia)) as (n' & Hn' & H0 & Hpos).
  rewrite Hn in Hn'. injection Hn' as <-.
  rewrite page_slice_nonneg by lia. rewrite length_firstn, length_skipn.
  assert (0 <= (current_page - 1) * page_size) by nia.
  destruct df_view as [|a df].
  - specialize (H0 eq_refl). subst n. cbn [List.length]. split; [lia|].
    intros ->. split; [lia|]. intro Hne. now contradiction Hne.
  - specialize (Hpos ltac:(cbn [List.length]; lia)). split.
    + intro Hlt. assert ((current_page - 1) * page_size + page_size
                         <= (n - 1) * page_size) by nia. lia.
    + intros ->. split; [lia|]. intros _. lia.
Qed.

Lemma page_slice_length_witness :
  let rows := Z.of_nat (List.length (page_slice 2 [10; 20; 30; 40; 50] 3)) in
  (3 < 3 -> rows = 2) /\
  (3 = 3 ->
     rows = Z.of_nat (List.length [10; 20; 30; 40; 50]) - (3 - 1) * 2 /\
     ([10; 20; 30; 40; 50] <> [] -> 1 <= rows <= 2)).
Proof.
  apply (@page_slice_length Z 2 [10; 20; 30; 40; 50] 3 3); [lia|reflexivity|lia].
Defined.

(** X8: row i of page p is row (p - 1) * page_size + i of the view. *)
Theorem page_slice_nth {A} (page_size : Z) (df_view : list A) (current_page : Z)
    (i : nat) :
  page_size > 0 -> 1 <= current_page -> Z.of_nat i < page_size ->
  nth_error (page_slice page_size df_view current_page) i =
  nth_error df_view (Z.to_nat ((current_page - 1) * page_size) + i).
Proof.
  intros Hps Hp Hi. rewrite page_slice_nonneg by assumption.
  rewrite nth_error_firstn, nth_error_skipn.
  destruct (Nat.ltb i (Z.to_nat page_size)) eqn:E; [reflexivity|].
  apply Nat.ltb_ge in E. lia.
Qed.

Lemma page_slice_nth_witness :
  nth_error (page_slice 2 [10; 20; 30; 40; 50] 2) 1 =
  nth_error [10; 20; 30; 40; 50] (Z.to_nat ((2 - 1) * 2) + 1).
Proof. apply (@page_slice_nth Z 2 [10; 20; 30; 40; 50] 2 1); lia. Defined.

Lemma StronglySorted_firstn {A} (R : A -> A -> Prop) (n : nat) (l : list A) :
  StronglySorted R l -> StronglySorted R (firstn n l).
Proof.
  intro H. revert n. induction H as [|a l Hl IH Ha]; intros [|n]; simpl;
    try constructor; auto.
  rewrite Forall_forall in *. intros x Hx. apply Ha.
  now apply (@window_rows _ 0 n l x) in Hx.
Qed.

Lemma StronglySorted_skipn {A} (R : A -> A -> Prop) (n : nat) (l : list A) :
  StronglySorted R l -> StronglySorted R (skipn n l).
Proof.
  intro H. revert n. induction H as [|a l Hl IH Ha]; intros [|n]; simpl;
    try constructor; auto.
Qed.

Lemma StronglySorted_cross {A} (R : A -> A -> Prop) (l1 l2 : list A) (a b : A) :
  StronglySorted R (l1 ++ l2) -> In a l1 -> In b l2 -> R a b.
Proof.
  induction l1 as [|x l1 IH]; simpl; intros H Ha Hb; [contradiction|].
  apply StronglySorted_inv in H as [H Hx]. destruct Ha as [->|Ha]; [|now apply IH].
  rewrite Forall_forall in Hx. apply Hx. apply in_or_app. now right.
Qed.

(** X9: the pages follow the order of the view: each page of a returned
    view is in non-increasing order of points, and a row of an earlier page
    never has fewer points than a row of a later page. *)
Theorem pages_descend
    (sort_values : list Index.row -> list Index.row)
    (min_point : Z) (genre_filter keyword : pystr) (df_index df_view : list Index.row)
    (page_size p q : Z) :
  sorts_by_point_desc sort_values ->
  view sort_values min_point genre_filter keyword df_index = Ret df_view ->
  page_size > 0 -> 1 <= p < q ->
  StronglySorted point_ge (page_slice page_size df_view p) /\
  forall a b, In a (page_slice page_size df_view p) ->
              In b (page_slice page_size df_view q) -> point_ge a b.
Proof.
  intros Hs Hv Hps Hpq.
  assert (Hsorted : StronglySorted point_ge df_view).
  { apply view_inv in Hv as (kept & _ & ->). apply Hs. }
  rewrite !page_slice_nonneg by lia. split.
  - now apply StronglySorted_firstn, StronglySorted_skipn.
  - intros a b Ha Hb.
    set (k := Z.to_nat (p * page_size)).
    apply (@StronglySorted_cross _ point_ge (firstn k df_view) (skipn k df_view)).
    + now rewrite firstn_skipn.
    + replace k with (Z.to_nat ((p - 1) * page_size) + Z.to_nat page_size)%nat
        by (unfold k; nia).
      rewrite firstn_add_skipn. apply in_or_app. now right.
    + apply window_rows in Hb as [Hb _].
      replace (Z.to_nat ((q - 1) * page_size))
        with (Z.to_nat ((q - 1 - p) * page_size) + k)%nat in Hb by (unfold k; nia).
      rewrite <- skipn_skipn in Hb. rewrite <- firstn_all in Hb.
      now apply window_rows in Hb as [_ Hb].
Qed.

Lemma pages_descend_witness :
  StronglySorted point_ge (page_slice 1 [row_abc; row_dragon; row_low] 1) /\
  forall a b, In a (page_slice 1 [row_abc; row_dragon; row_low] 1) ->
              In b (page_slice 1 [row_abc; row_dragon; row_low] 3) -> point_ge a b.
Proof.
  apply (@pages_descend sort_stable 0 ALL_GENRES [] [row_low; row_abc; row_dragon]
           [row_abc; row_dragon; row_low] 1 1 3).
  - apply insertion_sort_sorts.
  - reflexivity.
  - lia.
  - lia.
Defined.

(** ** The stories of a page, beyond the claims *)

Lemma In_ncode_in (ids : list pystr) (n : pystr) :
  In n ids -> ncode_in ids n = true.
Proof.
  intro H. unfold ncode_in. apply existsb_exists. exists n.
  split; [assumption|now apply pystr_eqb_eq].
Qed.

Lemma story_rows_intro (ids : list pystr) (rows : list Parquet.row) (r : Parquet.row) :
  In r rows -> In (Parquet.ncode r) ids ->
  In (Parquet.ncode r, Parquet.story r) (story_rows ids rows).
Proof.
  intros Hr Hk. unfold story_rows. apply in_map_iff. exists r. split; [reflexivity|].
  apply filter_In. split; [assumption|now apply In_ncode_in].
Qed.

(** X10: the story query answers with exactly the (ncode, story) pairs of
    the store rows whose ncode is one of the ids asked for. *)
Theorem story_rows_iff (ids : list pystr) (rows : list Parquet.row)
    (k : pystr) (s : option pystr) :
  In (k, s) (story_rows ids rows) <->
  In k ids /\ exists r, In r rows /\ Parquet.ncode r = k /\ Parquet.story r = s.
Proof.
  split.
  - unfold story_rows. rewrite in_map_iff. intros (r & E & Hr). injection E as <- <-.
    apply filter_In in Hr as [Hr Hin]. split; [now apply ncode_in_In|].
    now exists r.
  - intros (Hk & r & Hr & <- & <-). now apply story_rows_intro.
Qed.

Lemma merge_left_cons (l : Index.row) (left : list Index.row)
    (right : list (pystr * option pystr)) :
  merge_left (l :: left) right =
  match filter (fun d => pystr_eqb (fst d) (Index.ncode l)) right with
  | [] => [(l, None)]
  | d :: ds => map (fun d' => (l, snd d')) (d :: ds)
  end ++ merge_left left right.
Proof. reflexivity. Qed.

Lemma merge_one_In (l : Index.row) (right : list (pystr * option pystr))
    (x : Index.row * option pystr) :
  In x match filter (fun d => pystr_eqb (fst d) (Index.ncode l)) right with
       | [] => [(l, None)]
       | d :: ds => map (fun d' => (l, snd d')) (d :: ds)
       end <->
  fst x = l /\
  (In (Index.ncode l, snd x) right \/
   (snd x = None /\ ~ In (Index.ncode l) (map fst right))).
Proof.
  destruct x as [l' s]. cbn [fst snd].
  destruct (filter (fun d => pystr_eqb (fst d) (Index.ncode l)) right) as [|d ds] eqn:E.
  - assert (Hno : ~ In (Index.ncode l) (map fst right)).
    { intro H. apply in_map_iff in H as ([k s'] & Hk & Hin). simpl in Hk. subst k.
      assert (Hf : In (Index.ncode l, s')
                      (filter (fun d => pystr_eqb (fst d) (Index.ncode l)) right)).
      { apply filter_In. split; [assumption|now apply pystr_eqb_eq]. }
      rewrite E in Hf. contradiction. }
    simpl. split.
    + intros [H|[]]. injection H as <- <-. split; [reflexivity|]. now right.
    + intros [-> [H|[-> _]]]; [|now left].
      exfalso. apply Hno. apply in_map_iff. now exists (Index.ncode l, s).
  - rewrite <- E. rewrite in_map_iff. split.
    + intros ([k s'] & H & Hin). injection H as <- <-. simpl.
      apply filter_In in Hin as [Hin Hk]. simpl in Hk. apply pystr_eqb_eq in Hk.
      subst k. split; [reflexivity|now left].
    + intros [-> [H|[_ Hno]]].
      * exists (Index.ncode l, s). split; [reflexivity|].
        apply filter_In. split; [assumption|now apply pystr_eqb_eq].
      * exfalso. apply Hno. destruct d as [k s'].
        assert (Hd : In (k, s') (filter (fun d => pystr_eqb (fst d) (Index.ncode l)) right))
          by (rewrite E; now left).
        apply filter_In in Hd as [Hd Hk]. simpl in Hk. apply pystr_eqb_eq in Hk.
        subst k. apply in_map_iff. now exists (Index.ncode l, s').
Qed.

Lemma merge_left_intro (left : list Index.row) (right : list (pystr * option pystr))
    (l : Index.row) (s : option pystr) :
  In l left -> In (Index.ncode l, s) right -> In (l, s) (merge_left left right).
Proof.
  induction left as [|l0 left IH]; [contradiction|].
  intros Hl Hs. rewrite merge_left_cons, in_app_iff. destruct Hl as [->|Hl].
  - left. apply merge_one_In. split; [reflexivity|now left].
  - right. now apply IH.
Qed.

(** X11: the merged frame holds exactly the pairs of a page row with a
    story fetched under its ncode, and, for a page row with no story
    fetched, the row with a null story: no page row is lost and no story is
    attached to a row with another ncode. *)
Theorem merge_left_iff (left : list Index.row) (right : list (pystr * option pystr))
    (l : Index.row) (s : option pystr) :
  In (l, s) (merge_left left right) <->
  In l left /\
  (In (Index.ncode l, s) right \/
   (s = None /\ ~ In (Index.ncode l) (map fst right))).
Proof.
  induction left as [|l0 left IH].
  - simpl. split; [contradiction|intros [[] _]].
  - rewrite merge_left_cons, in_app_iff, merge_one_In, IH. simpl. split.
    + intros [[-> H]|[Hin H]]; (split; [auto|assumption]).
    + intros [[->|Hin] H]; [left|right]; auto.
Qed.

Lemma filter_none {A} (p : A -> bool) (l : list A) :
  (forall x, In x l -> p x = false) -> filter p l = [].
Proof.
  induction l as [|a l IH]; intro H; simpl; [reflexivity|].
  rewrite (H a (or_introl eq_refl)). apply IH. intros x Hx. apply H. now right.
Qed.

Lemma filter_key_unique (k : pystr) (right : list (pystr * option pystr)) :
  NoDup (map fst right) ->
  (List.length (filter (fun d => pystr_eqb (fst d) k) right) <= 1)%nat.
Proof.
  induction right as [|[k' s] right IH]; simpl; intro H; [lia|].
  apply NoDup_cons_iff in H as [Hk H]. simpl.
  destruct (pystr_eqb k' k) eqn:E; [|now apply IH].
  apply pystr_eqb_eq in E. subst k'. rewrite filter_none; [simpl; lia|].
  intros [k'' s''] Hx. simpl. apply pystr_eqb_neq. intros ->.
  apply Hk. apply in_map_iff. now exists (k, s'').
Qed.

(** When no ncode comes twice in the fetched stories, the merged frame has
    the rows of the page, each once and in the order of the page. *)
Lemma merge_left_unique_keys (left : list Index.row)
    (right : list (pystr * option pystr)) :
  NoDup (map fst right) ->
  map fst (merge_left left right) = left.
Proof.
  intro Hnd. induction left as [|l left IH]; [reflexivity|].
  rewrite merge_left_cons, map_app, IH.
  pose proof (filter_key_unique (Index.ncode l) right Hnd) as Hlen.
  destruct (filter (fun d => pystr_eqb (fst d) (Index.ncode l)) right) as [|d [|d' ds]];
    simpl in *; try reflexivity. lia.
Qed.

(** The answer to the story query repeats no ncode when the store does not. *)
Lemma story_rows_keys_once (ids : list pystr) (rows : list Parquet.row) :
  NoDup (map Parquet.ncode rows) -> NoDup (map fst (story_rows ids rows)).
Proof.
  unfold story_rows. rewrite map_map. cbn [fst].
  induction rows as [|r rows IH]; intro Hnd; [constructor|].
  cbn [map] in Hnd. apply NoDup_cons_iff in Hnd as [Hr Hnd]. cbn [filter].
  destruct (ncode_in ids (Parquet.ncode r)); [|now apply IH].
  cbn [map]. constructor; [|now apply IH].
  intro Hin. apply Hr. apply in_map_iff in Hin as (r' & E & Hr').
  apply filter_In in Hr' as [Hr' _]. apply in_map_iff. now exists r'.
Qed.

(** X12: on a readable store in which no ncode comes twice, the detail
    block of a page returns the rows of the page, each once and in order,
    and a page row whose ncode is in the store comes with the story of the
    store row of that ncode. *)
Theorem detail_block_readable (rows : list Parquet.row)
    (df_display_index : list Index.row) :
  NoDup (map Parquet.ncode rows) ->
  exists t df_final,
    detail_block (Some rows) df_display_index = (t, Ret df_final) /\
    map fst df_final = df_display_index /\
    forall l r, In l df_display_index -> In r rows ->
                Parquet.ncode r = Index.ncode l ->
                In (l, Parquet.story r) df_final.
Proof.
  intro Hnd. destruct df_display_index as [|l0 page].
  - exists [], []. split; [reflexivity|]. split; [reflexivity|]. intros l r [].
  - set (df := l0 :: page). set (ids := map Index.ncode df).
    exists [Execute INSTALL_LOAD_parquet; Execute (SELECT_story_IN ids)],
           (merge_left df (story_rows ids rows)).
    split; [reflexivity|]. split.
    + apply merge_left_unique_keys. now apply story_rows_keys_once.
    + intros l r Hl Hr E. apply merge_left_intro; [assumption|].
      rewrite <- E. apply story_rows_intro; [assumption|].
      rewrite E. unfold ids. apply in_map_iff. now exists l.
Qed.

Lemma detail_block_readable_witness :
  exists t df_final,
    detail_block (Some [parquet_other; parquet_abc]) [row_abc] = (t, Ret df_final) /\
    map fst df_final = [row_abc] /\
    forall l r, In l [row_abc] -> In r [parquet_other; parquet_abc] ->
                Parquet.ncode r = Index.ncode l ->
                In (l, Parquet.story r) df_final.
Proof.
  apply (@detail_block_readable [parquet_other; parquet_abc] [row_abc]).
  repeat constructor; simpl; [|tauto]. intros [H|[]]. discriminate.
Defined.

(** ** Whole runs *)

(** A run whose index load and filter succeed: the four events up to the
    page widget, then the detail block and the display. *)
Lemma main_after_view
    (sort_values : list Index.row -> list Index.row)
    (w : world) (rows : list Parquet.row) (min_point : Z)
    (genre_filter keyword : pystr) (current_page : Z) (df_view : list Index.row) :
  at_load w = Some rows ->
  view sort_values min_point genre_filter keyword (map index_of_row rows) = Ret df_view ->
  exists n,
    total_pages PAGE_SIZE (Z.of_nat (List.length df_view)) = Ret n /\
    main sort_values w min_point genre_filter keyword current_page =
    ([Execute INSTALL_LOAD_parquet; Execute SELECT_index;
      st_title (Z.of_nat (List.length df_view)); st_number_input n]
     ++ fst (bind (detail_block (at_fetch w)
                     (page_slice PAGE_SIZE df_view current_page)) display),
     match snd (bind (detail_block (at_fetch w)
                        (page_slice PAGE_SIZE df_view current_page)) display) with
     | Ret _ => Completed
     | Raise e => Uncaught e
     | Beyond => Unmodelled
     end).
Proof.
  intros Hload Hv.
  destruct (@total_pages_ceiling PAGE_SIZE (Z.of_nat (List.length df_view))
              ltac:(unfold PAGE_SIZE; lia) ltac:(lia)) as (n & Hn & _).
  exists n. split; [assumption|].
  unfold main. rewrite Hload, load_index_data_available. unfold body.
  rewrite Hv, bind_lift_ret, bind_emit, Hn, bind_lift_ret, bind_emit.
  cbn [fst snd].
  destruct (bind (detail_block (at_fetch w)
                    (page_slice PAGE_SIZE df_view current_page)) display)
    as [t [u| e |]]; reflexivity.
Qed.

(** X14: when the page has no row (no row passes the filter, or the page
    number is outside the pages) the run completes with the warning and
    without touching the store again, readable or not: the events are the
    index load, the title with the number of rows of the view, the page
    widget and the warning. *)
Theorem main_empty_page_warns
    (sort_values : list Index.row -> list Index.row)
    (w : world) (rows : list Parquet.row) (min_point : Z)
    (genre_filter keyword : pystr) (current_page : Z) (df_view : list Index.row) :
  at_load w = Some rows ->
  view sort_values min_point genre_filter keyword (map index_of_row rows) = Ret df_view ->
  page_slice PAGE_SIZE df_view current_page = [] ->
  exists n,
    total_pages PAGE_SIZE (Z.of_nat (List.length df_view)) = Ret n /\
    main sort_values w min_point genre_filter keyword current_page =
    ([Execute INSTALL_LOAD_parquet; Execute SELECT_index;
      st_title (Z.of_nat (List.length df_view)); st_number_input n; st_warning],
     Completed).
Proof.
  intros Hload Hv Hpage.
  destruct (main_after_view sort_values w min_point genre_filter keyword current_page
              Hload Hv) as (n & Hn & Hmain).
  exists n. split; [assumption|]. rewrite Hmain, Hpage. reflexivity.
Qed.

Lemma main_empty_page_warns_witness :
  exists n,
    total_pages PAGE_SIZE (Z.of_nat (List.length (@nil Index.row))) = Ret n /\
    main sort_stable {| at_load := Some [parquet_abc]; at_fetch := None |}
         1000 ALL_GENRES [] 1 =
    ([Execute INSTALL_LOAD_parquet; Execute SELECT_index;
      st_title (Z.of_nat (List.length (@nil Index.row))); st_number_input n; st_warning],
     Completed).
Proof.
  apply (@main_empty_page_warns sort_stable
           {| at_load := Some [parquet_abc]; at_fetch := None |} [parquet_abc]
           1000 ALL_GENRES [] 1 []); reflexivity.
Defined.

(** X15: with the store readable for both queries, a run whose page has at
    least one row completes and displays one table: the rows of the page
    merged with the stories the store has for their ncodes; before it, the
    title carries the number of rows of the whole view. *)
Theorem main_displays_page
    (sort_values : list Index.row -> list Index.row)
    (w : world) (rows rows' : list Parquet.row) (min_point : Z)
    (genre_filter keyword : pystr) (current_page : Z) (df_view : list Index.row) :
  at_load w = Some rows -> at_fetch w = Some rows' ->
  view sort_values min_point genre_filter keyword (map index_of_row rows) = Ret df_view ->
  page_slice PAGE_SIZE df_view current_page <> [] ->
  exists n,
    total_pages PAGE_SIZE (Z.of_nat (List.length df_view)) = Ret n /\
    let page := page_slice PAGE_SIZE df_view current_page in
    let ids := map Index.ncode page in
    main sort_values w min_point genre_filter keyword current_page =
    ([Execute INSTALL_LOAD_parquet; Execute SELECT_index;
      st_title (Z.of_nat (List.length df_view)); st_number_input n;
      Execute INSTALL_LOAD_parquet; Execute (SELECT_story_IN ids);
      st_data_editor (merge_left page (story_rows ids rows'))],
     Completed).
Proof.
  intros Hload Hfetch Hv Hpage.
  destruct (main_after_view sort_values w min_point genre_filter keyword current_page
              Hload Hv) as (n & Hn & Hmain).
  exists n. split; [assumption|]. intros page ids. rewrite Hmain, Hfetch.
  subst ids page.
  destruct (page_slice PAGE_SIZE df_view current_page) as [|l page] eqn:E;
    [now contradiction Hpage|].
  unfold detail_block, fetch_stories, execute_select.
  cbn -[merge_left story_rows].
  destruct (merge_left (l :: page) (story_rows (Index.ncode l :: map Index.ncode page) rows'))
    as [|x df] eqn:Em; [|reflexivity].
  exfalso. assert (Hin : In l (map fst (merge_left (l :: page)
              (story_rows (Index.ncode l :: map Index.ncode page) rows')))).
  { rewrite merge_left_cons.
    destruct (filter _ _); simpl; now left. }
  rewrite Em in Hin. contradiction.
Qed.

Lemma main_displays_page_witness :
  exists n,
    total_pages PAGE_SIZE (Z.of_nat (List.length [row_abc])) = Ret n /\
    let page := page_slice PAGE_SIZE [row_abc] 1 in
    let ids := map Index.ncode page in
    main sort_stable {| at_load := Some [parquet_abc]; at_fetch := Some [parquet_abc] |}
         0 ALL_GENRES [] 1 =
    ([Execute INSTALL_LOAD_parquet; Execute SELECT_index;
      st_title (Z.of_nat (List.length [row_abc])); st_number_input n;
      Execute INSTALL_LOAD_parquet; Execute (SELECT_story_IN ids);
      st_data_editor (merge_left page (story_rows ids [parquet_abc]))],
     Completed).
Proof.
  apply (@main_displays_page sort_stable
           {| at_load := Some [parquet_abc]; at_fetch := Some [parquet_abc] |}
           [parquet_abc] [parquet_abc] 0 ALL_GENRES [] 1 [row_abc]).
  - reflexivity.
  - reflexivity.
  - reflexivity.
  - vm_compute. discriminate.
Defined.

(** ** The options of the genre selectbox *)

Lemma In_unique (l : list pystr) (g : pystr) : In g (unique l) <-> In g l.
Proof.
  induction l as [|x l IH]; simpl; [reflexivity|].
  rewrite filter_In, IH, negb_true_iff, pystr_eqb_neq. split.
  - intros [->|[H _]]; auto.
  - intros [->|H]; [now left|].
    destruct (pystr_eqb g x) eqn:E.
    + apply pystr_eqb_eq in E. subst. now left.
    + apply pystr_eqb_neq in E. right. now split.
Qed.

Lemma NoDup_unique (l : list pystr) : NoDup (unique l).
Proof.
  induction l as [|x l IH]; simpl; constructor.
  - rewrite filter_In, negb_true_iff, pystr_eqb_neq. intros [_ H]. now apply H.
  - now apply NoDup_filter.
Qed.

Lemma In_sorted_insert (x : pystr) (l : list pystr) (g : pystr) :
  In g (sorted_insert x l) <-> g = x \/ In g l.
Proof.
  induction l as [|y l IH]; simpl.
  - split; intros [H|H]; auto.
  - destruct (pystr_ltb x y); simpl; [|rewrite IH]; split; intuition auto.
Qed.

Lemma In_sorted (l : list pystr) (g : pystr) : In g (sorted l) <-> In g l.
Proof.
  induction l as [|x l IH]; simpl; [reflexivity|].
  rewrite In_sorted_insert, IH. split; intros [H|H]; auto.
Qed.

Lemma pystr_lt_irrefl (a : pystr) : ~ pystr_lt a a.
Proof.
  unfold pystr_lt. induction a as [|x a IH]; simpl; [discriminate|].
  rewrite N.ltb_irrefl, N.eqb_refl. exact IH.
Qed.

Lemma pystr_lt_trans (a b c : pystr) : pystr_lt a b -> pystr_lt b c -> pystr_lt a c.
Proof.
  unfold pystr_lt. revert b c.
  induction a as [|x a IH]; intros [|y b] [|z c]; simpl; try discriminate; auto.
  destruct (N.ltb x y) eqn:Exy, (N.ltb y z) eqn:Eyz, (N.ltb x z) eqn:Exz;
    destruct (N.eqb x y) eqn:Qxy, (N.eqb y z) eqn:Qyz, (N.eqb x z) eqn:Qxz;
    try discriminate; auto;
    rewrite ?N.ltb_lt, ?N.ltb_ge, ?N.eqb_eq, ?N.eqb_neq in *; try lia.
  apply IH.
Qed.

Lemma pystr_lt_total (a b : pystr) : pystr_ltb a b = false -> a = b \/ pystr_lt b a.
Proof.
  unfold pystr_lt. revert b.
  induction a as [|x a IH]; intros [|y b]; simpl; try discriminate; auto.
  destruct (N.ltb x y) eqn:Exy; [discriminate|].
  destruct (N.eqb x y) eqn:Qxy.
  - apply N.eqb_eq in Qxy. subst y. rewrite N.ltb_irrefl, N.eqb_refl.
    intro H. destruct (IH b H) as [->|H']; auto.
  - intros _. right. apply N.ltb_ge in Exy. apply N.eqb_neq in Qxy.
    assert (E : N.ltb y x = true) by (apply N.ltb_lt; lia). now rewrite E.
Qed.

Lemma sorted_insert_sorted (x : pystr) (l : list pystr) :
  StronglySorted pystr_lt l -> ~ In x l -> StronglySorted pystr_lt (sorted_insert x l).
Proof.
  induction 1 as [|y l Hl IH Hy]; simpl; intro Hx.
  - repeat constructor.
  - destruct (pystr_ltb x y) eqn:E.
    + constructor; [now constructor|]. constructor; [exact E|].
      eapply Forall_impl; [|exact Hy]. intros z Hz. now apply (pystr_lt_trans E).
    + destruct (pystr_lt_total _ _ E) as [->|Hyx]; [exfalso; apply Hx; now left|].
      constructor; [apply IH; intro H; apply Hx; now right|].
      rewrite Forall_forall in *. intros z Hz.
      apply In_sorted_insert in Hz as [->|Hz]; auto.
Qed.

Lemma sorted_sorted (l : list pystr) : NoDup l -> StronglySorted pystr_lt (sorted l).
Proof.
  induction 1 as [|x l Hx Hl IH]; simpl; [constructor|].
  apply sorted_insert_sorted; [assumption|]. now rewrite In_sorted.
Qed.

Lemma StronglySorted_lt_NoDup (l : list pystr) : StronglySorted pystr_lt l -> NoDup l.
Proof.
  induction 1 as [|x l Hl IH Hx]; constructor; [|assumption].
  intro Hin. rewrite Forall_forall in Hx. exact (pystr_lt_irrefl (Hx x Hin)).
Qed.

Lemma genres_offered_aux (df_index : list Index.row) (g : pystr) :
  In g (genres df_index) ->
  g = ALL_GENRES \/ exists r, In r df_index /\ Index.genre r = g.
Proof.
  unfold genres. simpl. rewrite In_sorted, In_unique, in_map_iff.
  intros [<-|(r & E & Hr)]; [now left|right; now exists r].
Qed.

(** X18: the selectbox offers the "all" entry and exactly the genres that
    occur in the index: every row can be reached by some option, and no
    option other than "all" is without a row. *)
Theorem genres_offered (df_index : list Index.row) (g : pystr) :
  In g (genres df_index) <->
  g = ALL_GENRES \/ exists r, In r df_index /\ Index.genre r = g.
Proof.
  unfold genres. simpl. rewrite In_sorted, In_unique, in_map_iff. split.
  - intros [<-|(r & E & Hr)]; [now left|right; now exists r].
  - intros [->|(r & Hr & E)]; [now left|right; now exists r].
Qed.

(** X19: the options start with the "all" entry; the genres after it are in
    strictly increasing order of their code points, so none comes twice. *)
Theorem genres_sorted (df_index : list Index.row) :
  exists options,
    genres df_index = ALL_GENRES :: options /\
    StronglySorted pystr_lt options /\ NoDup options.
Proof.
  exists (sorted (unique (map Index.genre df_index))). split; [reflexivity|].
  assert (H : StronglySorted pystr_lt (sorted (unique (map Index.genre df_index))))
    by apply sorted_sorted, NoDup_unique.
  split; [assumption|now apply StronglySorted_lt_NoDup].
Qed.

(** X20: choosing an offered genre other than the "all" entry, with no
    threshold and no keyword, gives a filter result that is not empty and
    holds exactly the rows of that genre. *)
Theorem genre_option_selects (df_index : list Index.row) (min_point : Z) (g : pystr) :
  min_point <= 0 ->
  In g (genres df_index) -> g <> ALL_GENRES ->
  exists out,
    filter_index min_point g [] df_index = Ret out /\
    out <> [] /\
    forall r, In r out <-> In r df_index /\ Index.genre r = g.
Proof.
  intros Hmp Hg Hne.
  exists (filter (keeps min_point g None) df_index).
  split; [now apply filter_index_returns|].
  assert (Hk : forall r, keeps min_point g None r = true <-> Index.genre r = g).
  { intro r. unfold keeps. destruct (min_point >? 0) eqn:E; [lia|].
    apply pystr_eqb_neq in Hne. rewrite Hne. simpl.
    rewrite andb_true_r. apply pystr_eqb_eq. }
  assert (Hin : forall r, In r (filter (keeps min_point g None) df_index) <->
                          In r df_index /\ Index.genre r = g).
  { intro r. now rewrite filter_In, Hk. }
  split; [|exact Hin].
  apply genres_offered_aux in Hg as [->|(r & Hr & E)]; [now contradiction Hne|].
  intro Hnil. assert (H : In r (filter (keeps min_point g None) df_index))
    by (apply Hin; now split).
  rewrite Hnil in H. contradiction.
Qed.

Lemma genre_option_selects_witness :
  exists out,
    filter_index 0 (lit "102") [] [row_low; row_abc; row_dragon] = Ret out /\
    out <> [] /\
    forall r, In r out <-> In r [row_low; row_abc; row_dragon] /\ Index.genre r = lit "102".
Proof.
  apply (@genre_option_selects [row_low; row_abc; row_dragon] 0 (lit "102")).
  - lia.
  - vm_compute. tauto.
  - discriminate.
Defined.

(** ** The default inputs *)

(** X21: with no threshold, the "all" entry and no keyword nothing is
    dropped: the view is the index rearranged by the sort, every row as
    often as the index has it, so that the title counts the whole index. *)
Theorem view_defaults_keep_all
    (sort_values : list Index.row -> list Index.row)
    (min_point : Z) (df_index out : list Index.row) :
  sorts_by_point_desc sort_values ->
  min_point <= 0 ->
  view sort_values min_point ALL_GENRES [] df_index = Ret out ->
  Permutation df_index out /\ List.length out = List.length df_index.
Proof.
  intros Hs Hmp Hv. apply view_inv in Hv as (kept & Hk & ->).
  rewrite (@filter_index_returns min_point ALL_GENRES [] df_index None eq_refl) in Hk.
  injection Hk as <-.
  assert (E : filter (keeps min_point ALL_GENRES None) df_index = df_index).
  { rewrite <- (filter_true df_index) at 2. apply filter_ext. intro r.
    unfold keeps. destruct (min_point >? 0) eqn:E; [lia|reflexivity]. }
  rewrite E. destruct (Hs df_index) as [Hp _].
  split; [assumption|]. symmetry. now apply Permutation_length.
Qed.

Lemma view_defaults_keep_all_witness :
  Permutation [row_low; row_abc; row_dragon] [row_abc; row_dragon; row_low] /\
  List.length [row_abc; row_dragon; row_low] = List.length [row_low; row_abc; row_dragon].
Proof.
  apply (@view_defaults_keep_all sort_stable 0 [row_low; row_abc; row_dragon]
           [row_abc; row_dragon; row_low]).
  - apply insertion_sort_sorts.
  - lia.
  - reflexivity.
Defined.

(** * The filter for any re *)

Lemma keyword_step_in_filter (re : re_module) (keyword : pystr)
    (df out : list Index.row) :
  keyword_step_in re keyword df = Ret out ->
  exists p, compiles_in re keyword p /\
    out = filter (fun r => match p with
                           | Some e => cell_search re e (Index.title r)
                                       || cell_search re e (Index.keyword r)
                           | None => true
                           end) df.
Proof.
  unfold keyword_step_in, str_contains_in. destruct keyword as [|c k].
  - intros [= <-]. exists None. split; [reflexivity|]. symmetry; apply filter_true.
  - destruct (compile re (c :: k)) as [e|] eqn:E; simpl; [|discriminate].
    intros [= <-]. exists (Some e). split; [split; [discriminate|assumption]|].
    rewrite !map_map, combine_map_map, map_map. simpl.
    apply boolean_index_map.
Qed.

Lemma filter_index_in_filter (re : re_module) (min_point : Z)
    (genre_filter keyword : pystr) (df_index out : list Index.row) :
  filter_index_in re min_point genre_filter keyword df_index = Ret out ->
  exists p, compiles_in re keyword p /\
    out = filter (keeps_in re min_point genre_filter p) df_index.
Proof.
  unfold filter_index_in. intro H.
  apply keyword_step_in_filter in H as (p & Hp & ->).
  exists p. split; [assumption|].
  rewrite genre_step_filter, min_point_step_filter, !filter_filter.
  apply filter_ext. intro r. unfold keeps_in. now rewrite andb_assoc.
Qed.

Lemma filter_index_in_returns (re : re_module) (min_point : Z)
    (genre_filter keyword : pystr) (df_index : list Index.row)
    (p : option (re_Pattern re)) :
  compiles_in re keyword p ->
  filter_index_in re min_point genre_filter keyword df_index =
  Ret (filter (keeps_in re min_point genre_filter p) df_index).
Proof.
  unfold filter_index_in. intro H.
  rewrite genre_step_filter, min_point_step_filter, filter_filter.
  destruct p as [e|]; simpl in H.
  - destruct H as [Hne Hc]. unfold keyword_step_in, str_contains_in.
    destruct keyword as [|c k]; [now contradiction Hne|]. rewrite Hc. simpl.
    rewrite !map_map, combine_map_map, map_map. simpl.
    rewrite boolean_index_map, filter_filter. reflexivity.
  - subst keyword. simpl. f_equal. apply filter_ext. intro r. unfold keeps_in.
    now rewrite andb_true_r.
Qed.

Lemma filter_index_in_raises (re : re_module) (min_point : Z)
    (genre_filter keyword : pystr) (df_index : list Index.row) :
  keyword <> [] -> compile re keyword = None ->
  filter_index_in re min_point genre_filter keyword df_index = Raise re_error.
Proof.
  intros Hne Hc. unfold filter_index_in, keyword_step_in, str_contains_in.
  destruct keyword as [|c k]; [now contradiction Hne|]. now rewrite Hc.
Qed.

Lemma keeps_in_iff (re : re_module) (min_point : Z) (genre_filter keyword : pystr)
    (p : option (re_Pattern re)) (r : Index.row) :
  compiles_in re keyword p ->
  keeps_in re min_point genre_filter p r = true <->
  point_ok min_point r /\ genre_ok genre_filter r /\ keyword_matches_in re keyword r.
Proof.
  intro Hp. unfold keeps_in, point_ok, genre_ok, keyword_matches_in.
  rewrite !andb_true_iff. split.
  - intros [[H1 H2] H3]. repeat split.
    + intro Hpos. destruct (min_point >? 0) eqn:E; lia.
    + intro Hne. apply pystr_eqb_neq in Hne. rewrite Hne in H2. simpl in H2.
      now apply pystr_eqb_eq.
    + intro Hne. destruct p as [e|]; simpl in Hp; [|now contradiction Hne].
      exists e. split; [apply Hp|]. now apply orb_true_iff.
  - intros (H1 & H2 & H3). repeat split.
    + destruct (min_point >? 0) eqn:E; [|reflexivity]. specialize (H1 ltac:(lia)). lia.
    + destruct (pystr_eqb genre_filter ALL_GENRES) eqn:E; [reflexivity|]. simpl.
      apply pystr_eqb_eq. apply H2. now apply pystr_eqb_neq.
    + destruct p as [e|]; [|reflexivity]. destruct Hp as [Hne Hc].
      destruct (H3 Hne) as (e' & He' & Hm). rewrite Hc in He'. injection He' as <-.
      now apply orb_true_iff.
Qed.

Lemma view_in_inv (re : re_module) (sort_values : list Index.row -> list Index.row)
    (min_point : Z) (genre_filter keyword : pystr) (df_index out : list Index.row) :
  view_in re sort_values min_point genre_filter keyword df_index = Ret out ->
  exists kept,
    filter_index_in re min_point genre_filter keyword df_index = Ret kept /\
    out = sort_values kept.
Proof.
  unfold view_in.
  destruct (filter_index_in re min_point genre_filter keyword df_index) as [kept| |];
    simpl; try discriminate.
  intros [= <-]. now exists kept.
Qed.

(** On the patterns of the fragment the filter of sections 2 and 3 is the
    filter for [fragment_re]. *)
Lemma filter_index_in_fragment (min_point : Z) (genre_filter keyword : pystr)
    (df_index : list Index.row) :
  filter_index min_point genre_filter keyword df_index <> Beyond ->
  filter_index_in fragment_re min_point genre_filter keyword df_index =
  filter_index min_point genre_filter keyword df_index.
Proof.
  unfold filter_index_in, filter_index, keyword_step_in, keyword_step,
    str_contains_in, str_contains.
  destruct keyword as [|c k]; [reflexivity|]. cbn [compile fragment_re].
  destruct (re_compile (c :: k)) as [e| |]; simpl; try reflexivity.
  intro H. now contradiction H.
Qed.

(** C1, amended: whatever [re] is, whenever the view is returned (the
    keyword is empty or [re.compile] accepts it), every row of it is a row
    of the index (and no row is repeated if none is in the index), and every
    row satisfies the three predicates together: points >= min_point when
    min_point > 0, genre equal to genre_filter when it is not the "all"
    entry, and, when the keyword is not empty, the pattern compiled from the
    keyword matching somewhere in the title or in the keywords. *)
Theorem view_rows_satisfy_predicates
    (re : re_module) (sort_values : list Index.row -> list Index.row)
    (min_point : Z) (genre_filter keyword : pystr) (df_index out : list Index.row) :
  sorts_by_point_desc sort_values ->
  view_in re sort_values min_point genre_filter keyword df_index = Ret out ->
  incl out df_index /\
  (NoDup df_index -> NoDup out) /\
  forall r, In r out ->
    point_ok min_point r /\ genre_ok genre_filter r /\
    keyword_matches_in re keyword r.
Proof.
  intros Hs Hv. apply view_in_inv in Hv as (kept & Hk & ->).
  apply filter_index_in_filter in Hk as (p & Hp & ->).
  destruct (Hs (filter (keeps_in re min_point genre_filter p) df_index)) as [Hperm _].
  assert (Hin : forall r,
             In r (sort_values (filter (keeps_in re min_point genre_filter p) df_index)) ->
             In r df_index /\ keeps_in re min_point genre_filter p r = true).
  { intros r Hr. apply filter_In.
    eapply Permutation_in; [symmetry; exact Hperm|exact Hr]. }
  split; [|split].
  - intros r Hr. now apply Hin.
  - intro Hnd. eapply Permutation_NoDup; [exact Hperm|]. now apply NoDup_filter.
  - intros r Hr. apply (@keeps_in_iff re min_point genre_filter keyword p r Hp). now apply Hin.
Qed.

Lemma view_rows_satisfy_predicates_witness :
  sorts_by_point_desc sort_stable /\
  view_in fragment_re sort_stable 5 (lit "201") (lit "a.c") [row_low; row_abc]
    = Ret [row_abc] /\
  point_ok 5 row_abc /\ genre_ok (lit "201") row_abc /\
  keyword_matches_in fragment_re (lit "a.c") row_abc.
Proof.
  split; [apply insertion_sort_sorts|]. split; [reflexivity|].
  apply (@view_rows_satisfy_predicates fragment_re sort_stable 5 (lit "201") (lit "a.c")
           [row_low; row_abc] [row_abc]).
  - apply insertion_sort_sorts.
  - reflexivity.
  - simpl. now left.
Defined.

(** X1: whatever [re] is, the rows of a returned view are exactly the rows
    of the index that satisfy the three predicates together: none that
    passes is dropped. *)
Theorem view_membership
    (re : re_module) (sort_values : list Index.row -> list Index.row)
    (min_point : Z) (genre_filter keyword : pystr) (df_index out : list Index.row) :
  sorts_by_point_desc sort_values ->
  view_in re sort_values min_point genre_filter keyword df_index = Ret out ->
  forall r, In r out <->
    In r df_index /\
    point_ok min_point r /\ genre_ok genre_filter r /\
    keyword_matches_in re keyword r.
Proof.
  intros Hs Hv r. apply view_in_inv in Hv as (kept & Hk & ->).
  apply filter_index_in_filter in Hk as (p & Hp & ->).
  destruct (Hs (filter (keeps_in re min_point genre_filter p) df_index)) as [Hperm _].
  rewrite <- (@keeps_in_iff re min_point genre_filter keyword p r Hp), <- filter_In. split.
  - apply Permutation_in. now symmetry.
  - now apply Permutation_in.
Qed.

Lemma view_membership_witness :
  In row_abc [row_abc] <->
    In row_abc [row_low; row_abc; row_dragon] /\
    point_ok 5 row_abc /\ genre_ok (lit "201") row_abc /\
    keyword_matches_in fragment_re (lit "a.c") row_abc.
Proof.
  apply (@view_membership fragment_re sort_stable 5 (lit "201") (lit "a.c")
           [row_low; row_abc; row_dragon] [row_abc]).
  - apply insertion_sort_sorts.
  - reflexivity.
Defined.

(** * Runs for any re, any extension state and the cache *)




(** The four ways the index comes, or does not come. *)
Lemma load_index_data_in_cases (ss : session) :
  (exists df, cached ss = Some df /\ load_index_data_in ss = ([], Ret df)) \/
  (cached ss = None /\ extension_at_load ss = false /\
   load_index_data_in ss = ([Execute INSTALL_LOAD_parquet], Raise duckdb_IOException)) \/
  (cached ss = None /\ extension_at_load ss = true /\ at_load (seen ss) = None /\
   load_index_data_in ss =
     ([Execute INSTALL_LOAD_parquet; Execute SELECT_index], Raise duckdb_IOException)) \/
  (cached ss = None /\ extension_at_load ss = true /\
   exists rows, at_load (seen ss) = Some rows /\
   load_index_data_in ss =
     ([Execute INSTALL_LOAD_parquet; Execute SELECT_index], Ret (map index_of_row rows))).
Proof.
  unfold load_index_data_in, install_load, execute_select.
  destruct (cached ss) as [df|]; [left; now exists df|right].
  destruct (extension_at_load ss); [right|left; repeat split].
  destruct (at_load (seen ss)) as [rows|]; [right|left]; repeat split.
  now exists rows.
Qed.

(** The four ways the detail block and the display end. *)
Lemma detail_display_in_cases (ss : session) (page : list Index.row) :
  let dd := bind (detail_block_in ss page) display in
  let ids := map Index.ncode page in
  (page = [] /\ dd = ([st_warning], Ret tt)) \/
  (page <> [] /\ extension_at_fetch ss = false /\
   dd = ([Execute INSTALL_LOAD_parquet], Raise duckdb_IOException)) \/
  (page <> [] /\ extension_at_fetch ss = true /\ at_fetch (seen ss) = None /\
   dd = ([Execute INSTALL_LOAD_parquet; Execute (SELECT_story_IN ids)],
         Raise duckdb_IOException)) \/
  (page <> [] /\ extension_at_fetch ss = true /\
   exists rows' df_final,
     at_fetch (seen ss) = Some rows' /\
     dd = ([Execute INSTALL_LOAD_parquet; Execute (SELECT_story_IN ids);
            st_data_editor df_final], Ret tt)).
Proof.
  intros dd ids. subst dd ids.
  destruct page as [|l page]; [left; now split|right].
  unfold detail_block_in, fetch_stories_in, install_load, execute_select.
  destruct (extension_at_fetch ss); [right|left; repeat split; discriminate].
  destruct (at_fetch (seen ss)) as [rows'|]; [right|left; repeat split; discriminate].
  split; [discriminate|]. split; [reflexivity|].
  exists rows', (merge_left (l :: page)
                   (story_rows (map Index.ncode (l :: page)) rows')).
  split; [reflexivity|]. cbn -[merge_left story_rows].
  destruct (merge_left (l :: page) (story_rows (Index.ncode l :: map Index.ncode page) rows'))
    as [|x df] eqn:Em; [|reflexivity].
  exfalso. assert (Hin : In l (map fst (merge_left (l :: page)
              (story_rows (Index.ncode l :: map Index.ncode page) rows')))).
  { rewrite merge_left_cons. destruct (filter _ _); simpl; now left. }
  rewrite Em in Hin. contradiction.
Qed.

Lemma body_in_after_view
    (re : re_module) (sort_values : list Index.row -> list Index.row)
    (ss : session) (min_point : Z) (genre_filter keyword : pystr)
    (current_page : Z) (df_index df_view : list Index.row) :
  view_in re sort_values min_point genre_filter keyword df_index = Ret df_view ->
  exists n,
    total_pages PAGE_SIZE (Z.of_nat (List.length df_view)) = Ret n /\
    body_in re sort_values ss min_point genre_filter keyword current_page df_index =
    ([st_title (Z.of_nat (List.length df_view)); st_number_input n]
     ++ fst (bind (detail_block_in ss (page_slice PAGE_SIZE df_view current_page)) display),
     snd (bind (detail_block_in ss (page_slice PAGE_SIZE df_view current_page)) display)).
Proof.
  intro Hv.
  destruct (@total_pages_ceiling PAGE_SIZE (Z.of_nat (List.length df_view))
              ltac:(unfold PAGE_SIZE; lia) ltac:(lia)) as (n & Hn & _).
  exists n. split; [assumption|]. unfold body_in.
  rewrite Hv, bind_lift_ret, bind_emit, Hn, bind_lift_ret, bind_emit.
  cbn [fst snd].
  destruct (bind (detail_block_in ss (page_slice PAGE_SIZE df_view current_page)) display)
    as [t o]; reflexivity.
Qed.

Lemma body_in_view_fails
    (re : re_module) (sort_values : list Index.row -> list Index.row)
    (ss : session) (min_point : Z) (genre_filter keyword : pystr)
    (current_page : Z) (df_index : list Index.row) :
  (forall df_view, view_in re sort_values min_point genre_filter keyword df_index
                   <> Ret df_view) ->
  fst (body_in re sort_values ss min_point genre_filter keyword current_page df_index) = [] /\
  forall u, snd (body_in re sort_values ss min_point genre_filter keyword current_page
                   df_index) <> Ret u.
Proof.
  intro Hv. unfold body_in.
  destruct (view_in re sort_values min_point genre_filter keyword df_index)
    as [df_view| e |]; [now contradiction (Hv df_view)| |];
    split; try reflexivity; intros u; discriminate.
Qed.



(** X17: whatever [re] is, when the index can be had (from the cache, or
    from a readable store on a connection with the extension) and the
    stories can be had, a run completes exactly when the keyword is empty
    or [re.compile] accepts it, whatever the threshold, the genre and the
    page number. *)
Theorem run_completes_iff
    (re : re_module) (sort_values : list Index.row -> list Index.row)
    (ss : session) (min_point : Z) (genre_filter keyword : pystr) (current_page : Z) :
  index_available ss -> stories_available ss ->
  (snd (run re sort_values ss min_point genre_filter keyword current_page) = Completed
   <-> keyword = [] \/ exists p, compile re keyword = Some p).
Proof.
  intros Hidx [Hext Hstore]. unfold run.
  assert (Hload : exists t df_index, load_index_data_in ss = (t, Ret df_index)).
  { destruct (load_index_data_in_cases ss)
      as [(df & _ & ->)|[(Hc & He & _)|[(Hc & He & Hs & _)|(_ & _ & rows & _ & ->)]]];
      eauto; destruct Hidx as [H|[H1 H2]]; congruence. }
  destruct Hload as (t & df_index & ->).
  assert (Hret : keyword = [] \/ (exists p, compile re keyword = Some p) ->
                 exists out, view_in re sort_values min_point genre_filter keyword
                               df_index = Ret out).
  { intro H. unfold view_in.
    assert (Hp : exists p, compiles_in re keyword p).
    { destruct keyword as [|c k]; [now exists None|].
      destruct H as [H|(p & Hp)]; [discriminate|].
      exists (Some p). split; [discriminate|assumption]. }
    destruct Hp as (p & Hp).
    rewrite (@filter_index_in_returns re min_point genre_filter keyword df_index p Hp).
    eexists. reflexivity. }
  destruct (view_in re sort_values min_point genre_filter keyword df_index)
    as [df_view| e |] eqn:Hv.
  - destruct (@body_in_after_view re sort_values ss min_point genre_filter keyword
                current_page df_index df_view Hv) as (n & _ & ->).
    assert (Hend : snd (bind (detail_block_in ss
                               (page_slice PAGE_SIZE df_view current_page)) display)
                   = Ret tt).
    { destruct (detail_display_in_cases ss (page_slice PAGE_SIZE df_view current_page))
        as [[_ ->]|[(_ & H & _)|[(_ & _ & H & _)|(_ & _ & rows' & df & _ & ->)]]];
        try reflexivity; congruence. }
    rewrite Hend. cbn [snd]. split; [intros _|reflexivity].
    apply view_in_inv in Hv as (kept & Hk & _).
    apply filter_index_in_filter in Hk as ([p|] & Hp & _); simpl in Hp.
    + right. exists p. apply Hp.
    + now left.
  - assert (Hnot : forall df_view,
               view_in re sort_values min_point genre_filter keyword df_index
               <> Ret df_view) by (intros df; rewrite Hv; discriminate).
    destruct (@body_in_view_fails re sort_values ss min_point genre_filter keyword
                current_page df_index Hnot) as [_ Hb].
    split.
    + destruct (body_in re sort_values ss min_point genre_filter keyword current_page
                  df_index) as [t' [u| e' |]];
        [now contradiction (Hb u)|discriminate|discriminate].
    + intro H. destruct (Hret H) as (out & Ho). discriminate.
  - assert (Hnot : forall df_view,
               view_in re sort_values min_point genre_filter keyword df_index
               <> Ret df_view) by (intros df; rewrite Hv; discriminate).
    destruct (@body_in_view_fails re sort_values ss min_point genre_filter keyword
                current_page df_index Hnot) as [_ Hb].
    split.
    + destruct (body_in re sort_values ss min_point genre_filter keyword current_page
                  df_index) as [t' [u| e' |]];
        [now contradiction (Hb u)|discriminate|discriminate].
    + intro H. destruct (Hret H) as (out & Ho). discriminate.
Qed.

Lemma run_completes_iff_witness :
  snd (run fragment_re sort_stable
         {| cached := None; extension_at_load := true; extension_at_fetch := true;
            seen := {| at_load := Some [parquet_abc]; at_fetch := Some [parquet_abc] |} |}
         0 ALL_GENRES (lit "a.c") 1) = Completed
  <-> lit "a.c" = [] \/ exists p, compile fragment_re (lit "a.c") = Some p.
Proof.
  apply (@run_completes_iff fragment_re sort_stable
           {| cached := None; extension_at_load := true; extension_at_fetch := true;
              seen := {| at_load := Some [parquet_abc];
                         at_fetch := Some [parquet_abc] |} |}
           0 ALL_GENRES (lit "a.c") 1).
  - right. split; [reflexivity|discriminate].
  - split; [reflexivity|discriminate].
Defined.

(** The run of section 6 is the run of section 8 with the cache empty, the
    extension loaded both times and [re] the fragment, for the keywords of
    the fragment. *)
Lemma detail_block_in_extension (ss : session) (page : list Index.row) :
  extension_at_fetch ss = true ->
  detail_block_in ss page = detail_block (at_fetch (seen ss)) page.
Proof.
  intro H. destruct page as [|l page]; [reflexivity|].
  unfold detail_block_in, detail_block, fetch_stories_in, fetch_stories, install_load.
  rewrite H. destruct (at_fetch (seen ss)); reflexivity.
Qed.

Lemma view_in_fragment (sort_values : list Index.row -> list Index.row)
    (min_point : Z) (genre_filter keyword : pystr) (df_index : list Index.row) :
  re_compile keyword <> Outside ->
  view_in fragment_re sort_values min_point genre_filter keyword df_index =
  view sort_values min_point genre_filter keyword df_index.
Proof.
  intro H. unfold view_in, view. rewrite filter_index_in_fragment; [reflexivity|].
  unfold filter_index, keyword_step, str_contains.
  destruct keyword as [|c k]; [discriminate|].
  destruct (re_compile (c :: k)); [discriminate|discriminate|now contradiction H].
Qed.

Lemma run_is_main (sort_values : list Index.row -> list Index.row) (w : world)
    (min_point : Z) (genre_filter keyword : pystr) (current_page : Z) :
  re_compile keyword <> Outside ->
  run fragment_re sort_values
      {| cached := None; extension_at_load := true; extension_at_fetch := true;
         seen := w |} min_point genre_filter keyword current_page =
  main sort_values w min_point genre_filter keyword current_page.
Proof.
  intro H. unfold run, main.
  assert (Hload : load_index_data_in
                    {| cached := None; extension_at_load := true;
                       extension_at_fetch := true; seen := w |} =
                  load_index_data (at_load w)).
  { unfold load_index_data_in, load_index_data, install_load. cbn [cached
      extension_at_load seen]. destruct (at_load w); reflexivity. }
  rewrite Hload.
  destruct (load_index_data (at_load w)) as [t [df_index| e |]]; try reflexivity.
  unfold body_in, body.
  rewrite (@view_in_fragment sort_values min_point genre_filter keyword df_index H).
  destruct (view sort_values min_point genre_filter keyword df_index)
    as [df_view| e |]; reflexivity.
Qed.
